(** * Localization-Pro: the PDF-to-localization pipeline

    A shallow embedding of [services/localizationService.ts]: text
    extraction, the direct-translation / OCR decision, page rasterization,
    the OCR batch loop with its cross-page consolidation, and the
    materialization of the four Flutter files.

    JavaScript strings are sequences of UTF-16 code units; promises are
    modelled by their outcome (a value or a thrown value); the effects the
    service performs on its environment (progress callbacks, requests to the
    generative model, the creation and removal of the rendering canvas) are
    recorded, in order, in a trace. *)

From Stdlib Require Import Ascii String Decimal.
From Stdlib Require Import List NArith ZArith Bool Arith Lia.
From Stdlib Require Import Sorted Permutation Orders Mergesort.
Import ListNotations.

Local Open Scope list_scope.

(** ** JavaScript strings *)

(** A string value is its sequence of UTF-16 code units. *)
Definition codeunit := N.
Definition jsstring := list codeunit.

Definition jsstring_eq_dec : forall a b : jsstring, {a = b} + {a <> b} :=
  list_eq_dec N.eq_dec.

Definition str_eqb (a b : jsstring) : bool :=
  if jsstring_eq_dec a b then true else false.

(** An ASCII literal of the source, as a string value. *)
Definition lit (s : string) : jsstring :=
  map N_of_ascii (list_ascii_of_string s).

(** [s.length] *)
Definition str_length (s : jsstring) : nat := length s.

(** ToBoolean on a string: only the empty string is falsy. *)
Definition truthy (s : jsstring) : bool :=
  match s with [] => false | _ :: _ => true end.

(** [a || b] on strings. *)
Definition str_or (a b : jsstring) : jsstring :=
  if truthy a then a else b.

(** WhiteSpace and LineTerminator code points of ECMAScript (all of them lie
    in the basic plane): TAB, LF, VT, FF, CR, SP, NBSP, U+1680,
    U+2000..U+200A, LS, PS, U+202F, U+205F, U+3000 and the BOM. *)
Definition isWhiteSpaceOrLineTerminator (c : codeunit) : bool :=
  ((9 <=? c) && (c <=? 13) || (c =? 32) || (c =? 160) || (c =? 5760)
   || (8192 <=? c) && (c <=? 8202) || (c =? 8232) || (c =? 8233)
   || (c =? 8239) || (c =? 8287) || (c =? 12288) || (c =? 65279))%N.

Fixpoint trimStart (s : jsstring) : jsstring :=
  match s with
  | [] => []
  | c :: rest => if isWhiteSpaceOrLineTerminator c then trimStart rest else s
  end.

Definition trimEnd (s : jsstring) : jsstring := rev (trimStart (rev s)).

(** [s.trim()] *)
Definition trim (s : jsstring) : jsstring := trimEnd (trimStart s).

(** [s] starts with [p]. *)
Fixpoint startsWith (p s : jsstring) : bool :=
  match p, s with
  | [], _ => true
  | _ :: _, [] => false
  | a :: p', b :: s' => (a =? b)%N && startsWith p' s'
  end.

(** [s.includes(p)] *)
Fixpoint includes (p s : jsstring) : bool :=
  startsWith p s ||
  match s with
  | [] => false
  | _ :: s' => includes p s'
  end.

(** [\d] *)
Definition isDigit (c : codeunit) : bool := ((48 <=? c) && (c <=? 57))%N.

(** The pattern [\[5\d{2}\]] matched at the head of [s]. *)
Definition match5xxHere (s : jsstring) : bool :=
  match s with
  | a :: b :: c :: d :: e :: _ =>
      (a =? 91)%N && (b =? 53)%N && isDigit c && isDigit d && (e =? 93)%N
  | _ => false
  end.

(** [/\[5\d{2}\]/.test(s)]: the pattern matches somewhere in [s]. *)
Fixpoint test5xx (s : jsstring) : bool :=
  match5xxHere s ||
  match s with
  | [] => false
  | _ :: s' => test5xx s'
  end.

(** [s.split(sep)] for a one-unit separator: the pieces between the
    occurrences of [sep] (one piece when there is none). *)
Fixpoint split (sep : codeunit) (s : jsstring) : list jsstring :=
  match s with
  | [] => [[]]
  | c :: rest =>
      if (c =? sep)%N then [] :: split sep rest
      else match split sep rest with
           | [] => [[c]]
           | piece :: pieces => (c :: piece) :: pieces
           end
  end.

(** [pieces.join(sep)] *)
Fixpoint join (sep : jsstring) (pieces : list jsstring) : jsstring :=
  match pieces with
  | [] => []
  | [p] => p
  | p :: rest => p ++ sep ++ join sep rest
  end.

(** The relational comparison of two strings, [a < b]: by code units, a
    proper prefix first. It is also the order of [Array.prototype.sort]
    without a comparator. *)
Fixpoint str_ltb (a b : jsstring) : bool :=
  match a, b with
  | _, [] => false
  | [], _ :: _ => true
  | x :: a', y :: b' => (x <? y)%N || (x =? y)%N && str_ltb a' b'
  end.

Definition str_lt (a b : jsstring) : Prop := str_ltb a b = true.

Definition str_leb (a b : jsstring) : bool := negb (str_ltb b a).

(** [String(n)] for a non-negative integer. *)
Fixpoint uint_units (d : uint) : jsstring :=
  match d with
  | Nil => []
  | D0 d => 48%N :: uint_units d
  | D1 d => 49%N :: uint_units d
  | D2 d => 50%N :: uint_units d
  | D3 d => 51%N :: uint_units d
  | D4 d => 52%N :: uint_units d
  | D5 d => 53%N :: uint_units d
  | D6 d => 54%N :: uint_units d
  | D7 d => 55%N :: uint_units d
  | D8 d => 56%N :: uint_units d
  | D9 d => 57%N :: uint_units d
  end.

Definition showNat (n : nat) : jsstring := uint_units (Nat.to_uint n).

(** [String.prototype.toLowerCase] follows the Unicode case tables, which are
    not part of the repository: the service is modelled over any host that
    provides it. *)
Class Host := { toLowerCase : jsstring -> jsstring }.

(** A host whose [toLowerCase] maps A..Z to a..z and leaves every other code
    unit alone; it agrees with JavaScript on strings of ASCII code units. *)
Definition asciiLower (c : codeunit) : codeunit :=
  if ((65 <=? c) && (c <=? 90))%N then (c + 32)%N else c.

Definition asciiHost : Host := {| toLowerCase := map asciiLower |}.

(** ** Data model ([types.ts]) *)

Record TranslationPair := {
  key : jsstring;
  en_text : jsstring;
  ar_text : jsstring
}.

Record GeneratedFile := {
  filename : jsstring;
  content : jsstring
}.

(** One rendered page, as sent to the model: [{ data, mimeType }]. *)
Record imagePart := {
  data : jsstring;
  mimeType : jsstring
}.

(** ** Outcomes and effects *)

(** What a [throw] carries: an [Error] with its message, or any other value. *)
Inductive thrown :=
| JsError (message : jsstring)
| NonError.

(** How an awaited computation ends. *)
Inductive outcome (A : Type) :=
| Returned (a : A)
| Thrown (e : thrown).
Arguments Returned {A} a.
Arguments Thrown {A} e.

(** The effects of the service on its environment. *)
Inductive effect :=
| Progress (message : jsstring) (percentage : Z)
| RequestText (texts : list jsstring)
| RequestImage (index : nat) (part : imagePart)
| CanvasCreated
| CanvasRemoved.

(** A computation of the service: the effects it performed, in order, and
    how it ended. *)
Definition M (A : Type) : Type := list effect * outcome A.

Definition ret {A} (a : A) : M A := ([], Returned a).

Definition throw {A} (e : thrown) : M A := ([], Thrown e).

Definition bind {A B} (m : M A) (f : A -> M B) : M B :=
  match m with
  | (t, Returned a) => let (t', r) := f a in (t ++ t', r)
  | (t, Thrown e) => (t, Thrown e)
  end.

Definition emit (e : effect) : M unit := ([e], Returned tt).

Definition await {A} (o : outcome A) : M A := ([], o).

Declare Scope js_scope.
Delimit Scope js_scope with js.
Notation "x <- m ;; k" := (bind m (fun x => k))
  (at level 100, m at next level, right associativity) : js_scope.
Notation "m ;; k" := (bind m (fun _ => k))
  (at level 100, right associativity) : js_scope.
Local Open Scope js_scope.

(** [throw new Error(message)] *)
Definition throwError {A} (message : string) : M A :=
  throw (JsError (lit message)).

(** [onProgress(message, percentage)] *)
Definition onProgress (message : jsstring) (percentage : Z) : M unit :=
  emit (Progress message percentage).

Definition trace {A} (m : M A) : list effect := fst m.
Definition result {A} (m : M A) : outcome A := snd m.

(** ** The environment of one run *)

(** A page of the document as pdf.js presents it: the [str] of each item of
    its text content, how [page.render(...).promise] ends, and what
    [canvas.toDataURL('image/jpeg', 0.9)] returns once it is rendered.
    [getPage] and [getTextContent] are taken to resolve. *)
Record pdfPage := {
  textItems : list jsstring;
  renderOutcome : outcome unit;
  dataURL : jsstring
}.

(** How one call to the model ends: [generateContent] rejects, or reading
    and parsing its response throws, or the response parses to records. *)
Inductive response :=
| CallFailed (e : thrown)
| ParseFailed (e : thrown)
| Parsed (pairs : list TranslationPair).

Record world := {
  (** [typeof window.pdfjsLib !== 'undefined'] *)
  pdfjsLib : bool;
  (** [file.arrayBuffer()] and [getDocument({ data }).promise] *)
  getDocument : outcome (list pdfPage);
  (** [canvas.getContext('2d')] is not null *)
  getContext : bool;
  (** the model's answer to the list of strings *)
  respondText : list jsstring -> response;
  (** the model's answer to the image of the page at an index *)
  respondImage : nat -> imagePart -> response
}.

(** ** [extractTextFromPdf] *)

(** A [Set<string>] in insertion order. *)
Definition set_add (x : jsstring) (s : list jsstring) : list jsstring :=
  if existsb (str_eqb x) s then s else s ++ [x].

Definition addItem (uniqueTexts : list jsstring) (str : jsstring)
  : list jsstring :=
  let trimmedText := trim str in
  if (1 <? str_length trimmedText)%nat then set_add trimmedText uniqueTexts
  else uniqueTexts.

Definition addPage (uniqueTexts : list jsstring) (page : pdfPage)
  : list jsstring :=
  fold_left addItem (textItems page) uniqueTexts.

Definition extractTextFromPdf (w : world) : M (list jsstring) :=
  if negb (pdfjsLib w)
  then throwError "pdf.js library is not loaded. Please check index.html."
  else
    pdf <- await (getDocument w) ;;
    ret (fold_left addPage pdf []).

(** ** [generateKeysAndTranslations] *)

Definition apiCallFailed : string :=
  "API call failed. Check your API key and billing status. This may also be a temporary Google Cloud issue.".

Definition unknownError : string :=
  "An unknown error occurred while generating translations.".

Definition isCriticalText (e : thrown) : bool :=
  match e with
  | JsError message => includes (lit "Rpc failed") message || test5xx message
  | NonError => false
  end.

Definition generateKeysAndTranslations (w : world) (texts : list jsstring)
  : M (list TranslationPair) :=
  emit (RequestText texts) ;;
  match respondText w texts with
  | CallFailed e =>
      if isCriticalText e then throwError apiCallFailed
      else throwError unknownError
  | ParseFailed _ =>
      throwError "The AI returned an invalid response. Please try again."
  | Parsed pairs => ret pairs
  end.

(** ** [convertPdfPagesToImageParts] *)

(** [Math.round(a / b)] for [b > 0]: the nearest integer, a tie going up.
    The quotient is taken exactly; the binary64 computation of the source
    gives the same integer wherever its operands are exact, as they are in
    every run evaluated below. *)
Definition roundDiv (a b : Z) : Z := (2 * a + b) / (2 * b).

(** [Math.round((i / numPages) * 30)] *)
Definition progressPercentage (i numPages : nat) : Z :=
  roundDiv (Z.of_nat i * 30) (Z.of_nat numPages).

(** [dataUrl.split(',')[1]], pushed when it is truthy. *)
Definition pushImagePart (imageParts : list imagePart) (dataUrl : jsstring)
  : list imagePart :=
  match nth_error (split 44%N dataUrl) 1 with
  | Some base64Data =>
      if truthy base64Data
      then imageParts ++ [{| data := base64Data; mimeType := lit "image/jpeg" |}]
      else imageParts
  | None => imageParts
  end.

(** The loop [for (let i = 1; i <= pdf.numPages; i++)], entered at [i] with
    the pages from [i] on still to render. *)
Fixpoint renderPages (numPages i : nat) (pages : list pdfPage)
    (imageParts : list imagePart) : M (list imagePart) :=
  match pages with
  | [] => ret imageParts
  | page :: rest =>
      onProgress
        (lit "Converting page " ++ showNat i ++ lit "/" ++ showNat numPages
           ++ lit " to image...")
        (progressPercentage i numPages) ;;
      await (renderOutcome page) ;;
      renderPages numPages (S i) rest (pushImagePart imageParts (dataURL page))
  end.

Definition convertPdfPagesToImageParts (w : world) : M (list imagePart) :=
  if negb (pdfjsLib w) then throwError "pdf.js library is not loaded."
  else
    pdf <- await (getDocument w) ;;
    emit CanvasCreated ;;
    if negb (getContext w)
    then throwError "Could not create canvas context for rendering PDF."
    else
      imageParts <- renderPages (length pdf) 1 pdf [] ;;
      emit CanvasRemoved ;;
      ret imageParts.

(** ** [generateLocalizationFromPdfImages] *)

Definition isCriticalOcr (e : thrown) : bool :=
  match e with
  | JsError message =>
      includes (lit "Rpc failed") message || test5xx message
      || includes (lit "API key") message
  | NonError => false
  end.

(** [processPage]: one request per page; a critical failure is thrown again
    under the service's own message, any other failure yields no records. *)
Definition processPage (w : world) (part : imagePart) (index : nat)
  : M (list TranslationPair) :=
  emit (RequestImage index part) ;;
  match respondImage w index part with
  | Parsed pairs => ret pairs
  | CallFailed e | ParseFailed e =>
      if isCriticalOcr e then throwError apiCallFailed else ret []
  end.

(** [Promise.all] over promises that are already started: every effect has
    happened; the result is the list of values, or a rejection when one of
    them rejects. The rejections of [processPage] all carry the same error,
    so which of them comes first in time makes no difference. *)
Fixpoint promiseAll {A} (promises : list (M A)) : M (list A) :=
  match promises with
  | [] => ret []
  | (t, o) :: rest =>
      let (t', os) := promiseAll rest in
      (t ++ t',
       match o, os with
       | Thrown e, _ => Thrown e
       | Returned _, Thrown e => Thrown e
       | Returned a, Returned l => Returned (a :: l)
       end)
  end.

(** [array.map((x, index) => f(x, index))], the indices counted from [start]. *)
Fixpoint mapi {A B} (f : A -> nat -> B) (start : nat) (l : list A) : list B :=
  match l with
  | [] => []
  | x :: rest => f x start :: mapi f (S start) rest
  end.

(** [array.slice(from, to)] for [0 <= from <= to]. *)
Definition slice {A} (from to : nat) (l : list A) : list A :=
  firstn (to - from) (skipn from l).

Definition BATCH_SIZE : nat := 5.
Definition ocrStartProgress : Z := 30.
Definition ocrEndProgress : Z := 90.
Definition ocrProgressRange : Z := ocrEndProgress - ocrStartProgress.

(** [Math.round(ocrStartProgress + (i / length) * ocrProgressRange)] *)
Definition batchProgress (i len : nat) : Z :=
  roundDiv (ocrStartProgress * Z.of_nat len + Z.of_nat i * ocrProgressRange)
           (Z.of_nat len).

(** The loop [for (let i = 0; i < imageParts.length; i += BATCH_SIZE)],
    entered at [i]. [fuel] bounds the number of rounds; the length of
    [imageParts] is always enough (lemma [ocrBatches_fuel]). *)
Fixpoint ocrBatches (w : world) (imageParts : list imagePart)
    (fuel i : nat) (allTranslations : list TranslationPair)
  : M (list TranslationPair) :=
  match fuel with
  | O => ret allTranslations
  | S fuel' =>
      if (i <? length imageParts)%nat then
        let batch := slice i (i + BATCH_SIZE) imageParts in
        let batchStartIndex := i in
        onProgress
          (lit "Processing OCR on pages " ++ showNat (batchStartIndex + 1)
             ++ lit "-"
             ++ showNat (Nat.min (batchStartIndex + BATCH_SIZE)
                                 (length imageParts))
             ++ lit "...")
          (batchProgress batchStartIndex (length imageParts)) ;;
        batchResults <-
          promiseAll (mapi (fun part indexInBatch => processPage w part indexInBatch)
                           batchStartIndex batch) ;;
        ocrBatches w imageParts fuel' (i + BATCH_SIZE)
                   (allTranslations ++ concat batchResults)
      else ret allTranslations
  end.

(** A [Map<string, V>]: its entries in insertion order. *)
Definition jsMap (V : Type) := list (jsstring * V).

Definition map_has {V} (k : jsstring) (m : jsMap V) : bool :=
  existsb (fun entry => str_eqb (fst entry) k) m.

Fixpoint map_replace {V} (k : jsstring) (v : V) (m : jsMap V) : jsMap V :=
  match m with
  | [] => []
  | (k', v') :: rest =>
      if str_eqb k' k then (k', v) :: rest else (k', v') :: map_replace k v rest
  end.

(** [m.set(k, v)]: a present key keeps its place, a new one goes last. *)
Definition map_set {V} (k : jsstring) (v : V) (m : jsMap V) : jsMap V :=
  if map_has k m then map_replace k v m else m ++ [(k, v)].

(** [Array.from(m.values())] *)
Definition map_values {V} (m : jsMap V) : list V := map snd m.

Section Consolidation.
Context {host : Host}.

(** [item.en_text.trim().toLowerCase() || item.ar_text.trim()] *)
Definition uniqueKey (item : TranslationPair) : jsstring :=
  str_or (toLowerCase (trim (en_text item))) (trim (ar_text item)).

(** The body of [allTranslations.forEach(item => ...)]. *)
Definition addTranslation (uniqueTranslations : jsMap TranslationPair)
    (item : TranslationPair) : jsMap TranslationPair :=
  let k := uniqueKey item in
  if truthy k && negb (map_has k uniqueTranslations)
  then map_set k item uniqueTranslations
  else uniqueTranslations.

(** The de-duplication of the results of all pages. *)
Definition consolidate (allTranslations : list TranslationPair)
  : list TranslationPair :=
  map_values (fold_left addTranslation allTranslations []).

Definition generateLocalizationFromPdfImages (w : world)
  : M (list TranslationPair) :=
  imageParts <- convertPdfPagesToImageParts w ;;
  if (length imageParts =? 0)%nat
  then throwError "Could not convert PDF to images for OCR processing."
  else
    allTranslations <- ocrBatches w imageParts (length imageParts) 0 [] ;;
    onProgress (lit "Consolidating results...") 90 ;;
    ret (consolidate allTranslations).

(** [uniqueKey] is truthy: the record can enter the map. *)
Definition hasKey (item : TranslationPair) : bool := truthy (uniqueKey item).
End Consolidation.

(** ** [generateFlutterFiles] *)

(** A [Record<string, string>] created by [{}]: its own properties in
    creation order. *)
Definition jsObject := list (jsstring * jsstring).

(** [obj[k] = v]. Assigning a string to ["__proto__"] runs the inherited
    setter, which ignores it: no own property appears. *)
Definition obj_set (k v : jsstring) (obj : jsObject) : jsObject :=
  if str_eqb k (lit "__proto__") then obj else map_set k v obj.

(** The value of a string of decimal digits. *)
Definition digitsValue (s : jsstring) : N :=
  fold_left (fun acc c => (acc * 10 + (c - 48))%N) s 0%N.

(** An array index: the canonical decimal form of an integer below
    2^32 - 1. Such keys are enumerated first, in ascending numeric order. *)
Definition arrayIndex (k : jsstring) : option N :=
  match k with
  | [] => None
  | c :: rest =>
      if forallb isDigit k
         && ((c =? 48)%N && (length rest =? 0)%nat || negb (c =? 48)%N)
         && (length k <=? 10)%nat
         && (digitsValue k <? 4294967295)%N
      then Some (digitsValue k)
      else None
  end.

Fixpoint insertIndex (p : N * (jsstring * jsstring))
    (l : list (N * (jsstring * jsstring))) : list (N * (jsstring * jsstring)) :=
  match l with
  | [] => [p]
  | q :: rest =>
      if (fst p <=? fst q)%N then p :: l else q :: insertIndex p rest
  end.

(** The own properties in the order [JSON.stringify] visits them. *)
Definition ownProperties (obj : jsObject) : list (jsstring * jsstring) :=
  let indexed :=
    fold_right
      (fun entry acc =>
         match arrayIndex (fst entry) with
         | Some n => insertIndex (n, entry) acc
         | None => acc
         end) [] obj in
  let named :=
    filter (fun entry =>
              match arrayIndex (fst entry) with
              | Some _ => false
              | None => true
              end) obj in
  map snd indexed ++ named.

Definition hexDigit (n : N) : codeunit :=
  if (n <? 10)%N then (48 + n)%N else (87 + n)%N.

(** [\uXXXX], in lower-case hexadecimal. *)
Definition unicodeEscape (c : codeunit) : jsstring :=
  [92; 117]%N ++
  [hexDigit (c / 4096 mod 16); hexDigit (c / 256 mod 16);
   hexDigit (c / 16 mod 16); hexDigit (c mod 16)]%N.

Definition isHighSurrogate (c : codeunit) : bool :=
  ((55296 <=? c) && (c <=? 56319))%N.
Definition isLowSurrogate (c : codeunit) : bool :=
  ((56320 <=? c) && (c <=? 57343))%N.

(** The escapes of [QuoteJSONString], without the enclosing quotes. *)
Fixpoint jsonEscape (s : jsstring) : jsstring :=
  match s with
  | [] => []
  | c :: rest =>
      if (c =? 8)%N then [92; 98]%N ++ jsonEscape rest
      else if (c =? 9)%N then [92; 116]%N ++ jsonEscape rest
      else if (c =? 10)%N then [92; 110]%N ++ jsonEscape rest
      else if (c =? 12)%N then [92; 102]%N ++ jsonEscape rest
      else if (c =? 13)%N then [92; 114]%N ++ jsonEscape rest
      else if (c =? 34)%N then [92; 34]%N ++ jsonEscape rest
      else if (c =? 92)%N then [92; 92]%N ++ jsonEscape rest
      else if (c <? 32)%N then unicodeEscape c ++ jsonEscape rest
      else if isHighSurrogate c then
        match rest with
        | d :: rest' =>
            if isLowSurrogate d then c :: d :: jsonEscape rest'
            else unicodeEscape c ++ jsonEscape rest
        | [] => unicodeEscape c
        end
      else if isLowSurrogate c then unicodeEscape c ++ jsonEscape rest
      else c :: jsonEscape rest
  end.

Definition dquote : jsstring := [34%N].
Definition newline : jsstring := [10%N].

Definition quoteJSON (s : jsstring) : jsstring :=
  dquote ++ jsonEscape s ++ dquote.

(** [JSON.stringify(obj, null, 2)] for an object of string properties. *)
Definition JSON_stringify (obj : jsObject) : jsstring :=
  match ownProperties obj with
  | [] => lit "{}"
  | properties =>
      lit "{" ++ newline
      ++ join (lit "," ++ newline)
           (map (fun p => lit "  " ++ quoteJSON (fst p) ++ lit ": "
                            ++ quoteJSON (snd p)) properties)
      ++ newline ++ lit "}"
  end.

(** [enTranslations], [arTranslations] and [allKeys] after the [forEach]. *)
Definition enTranslations (data : list TranslationPair) : jsObject :=
  fold_left (fun obj item => obj_set (key item) (en_text item) obj) data [].

Definition arTranslations (data : list TranslationPair) : jsObject :=
  fold_left (fun obj item => obj_set (key item) (ar_text item) obj) data [].

Definition allKeys (data : list TranslationPair) : list jsstring :=
  fold_left (fun keys item => set_add (key item) keys) data [].

(** The default order of [Array.prototype.sort]: strings by code units. *)
Module KeyOrder <: TotalLeBool.
Definition t := jsstring.
Definition leb := str_leb.
Lemma leb_total : forall a b, leb a b = true \/ leb b a = true.
Proof.
  unfold leb, str_leb.
  induction a as [|x a IH]; destruct b as [|y b]; simpl; auto.
  destruct (N.compare_spec x y) as [E|L|G].
  - subst. rewrite N.ltb_irrefl, N.eqb_refl. simpl. apply IH.
  - left. replace (y <? x)%N with false by (symmetry; apply N.ltb_ge; lia).
    replace (y =? x)%N with false by (symmetry; apply N.eqb_neq; lia).
    reflexivity.
  - right. replace (x <? y)%N with false by (symmetry; apply N.ltb_ge; lia).
    replace (x =? y)%N with false by (symmetry; apply N.eqb_neq; lia).
    reflexivity.
Qed.
End KeyOrder.

Module KeySort := Sort KeyOrder.

(** [Array.from(allKeys).sort()] *)
Definition sortedKeys (data : list TranslationPair) : list jsstring :=
  KeySort.sort (allKeys data).

Definition localeKeysHeader : jsstring :=
  lit "// DO NOT EDIT. This is code generated via package:easy_localization/generate.dart"
  ++ newline ++ newline ++ lit "abstract class  LocaleKeys {" ++ newline.

Definition localeKeysFooter : jsstring :=
  newline ++ newline ++ lit "}" ++ newline.

(** [`  static const ${key} = '${key}';`] *)
Definition constantLine (k : jsstring) : jsstring :=
  lit "  static const " ++ k ++ lit " = '" ++ k ++ lit "';".

Definition localeKeysContent (data : list TranslationPair) : jsstring :=
  localeKeysHeader
  ++ join newline (map constantLine (sortedKeys data))
  ++ localeKeysFooter.

Definition codegenLoaderContent (arMapString enMapString : jsstring)
  : jsstring :=
  join newline
    [ lit "// DO NOT EDIT. This is code generated via package:easy_localization/generate.dart";
      [];
      lit "// ignore_for_file: prefer_single_quotes, avoid_renaming_method_parameters, constant_identifier_names";
      [];
      lit "import 'dart:ui';";
      [];
      lit "import 'package:easy_localization/easy_localization.dart' show AssetLoader;";
      [];
      lit "class CodegenLoader extends AssetLoader{";
      lit "  const CodegenLoader();";
      [];
      lit "  @override";
      lit "  Future<Map<String, dynamic>?> load(String path, Locale locale) {";
      lit "    return Future.value(mapLocales[locale.toString()]);";
      lit "  }";
      [];
      lit "  static const Map<String,dynamic> _ar = " ++ arMapString ++ lit ";";
      lit "  static const Map<String,dynamic> _en = " ++ enMapString ++ lit ";";
      lit "  static const Map<String, Map<String,dynamic>> mapLocales = {"
        ++ dquote ++ lit "ar" ++ dquote ++ lit ": _ar, "
        ++ dquote ++ lit "en" ++ dquote ++ lit ": _en};";
      lit "}";
      [] ].

Definition generateFlutterFiles (data : list TranslationPair)
  : list GeneratedFile :=
  let arMapString := JSON_stringify (arTranslations data) in
  let enMapString := JSON_stringify (enTranslations data) in
  [ {| filename := lit "ar.json";
       content := JSON_stringify (arTranslations data) |};
    {| filename := lit "en.json";
       content := JSON_stringify (enTranslations data) |};
    {| filename := lit "locale_keys.g.dart";
       content := localeKeysContent data |};
    {| filename := lit "codegen_loader.dart";
       content := codegenLoaderContent arMapString enMapString |} ].

(** ** [processPdfForLocalization] *)

Definition noLocalizableText : string :=
  "No localizable text was found in the PDF. The file might be empty or contain only images with no recognizable text.".

Section Pipeline.
Context {host : Host}.

(** The service up to the point where the records are handed to
    [generateFlutterFiles]: extraction, the choice of a path, and the
    check that some record was found. *)
Definition localizationData (w : world) : M (list TranslationPair) :=
  onProgress (lit "Extracting text from PDF...") 5 ;;
  texts <- extractTextFromPdf w ;;
  data <-
    (if (5 <? length texts)%nat
     then
       (onProgress (lit "Generating keys & translations...") 50 ;;
        generateKeysAndTranslations w texts)
     else
       (onProgress
          (lit "Text extraction insufficient. Starting OCR process...") 10 ;;
        generateLocalizationFromPdfImages w)) ;;
  if (length data =? 0)%nat
  then throwError noLocalizableText
  else ret data.

Definition processPdfForLocalization (w : world) : M (list GeneratedFile) :=
  data <- localizationData w ;;
  onProgress (lit "Constructing Flutter files...") 95 ;;
  ret (generateFlutterFiles data).
End Pipeline.

(** The percentages a run reported, in order. *)
Fixpoint percentages (t : list effect) : list Z :=
  match t with
  | [] => []
  | Progress _ p :: rest => p :: percentages rest
  | _ :: rest => percentages rest
  end.

(** The canvases created and not yet removed at the end of a trace. *)
Fixpoint liveCanvases (t : list effect) (live : nat) : nat :=
  match t with
  | [] => live
  | CanvasCreated :: rest => liveCanvases rest (S live)
  | CanvasRemoved :: rest => liveCanvases rest (Nat.pred live)
  | _ :: rest => liveCanvases rest live
  end.

(** The requests a run sent to the model. *)
Definition isRequestText (e : effect) : bool :=
  match e with RequestText _ => true | _ => false end.
Definition isRequestImage (e : effect) : bool :=
  match e with RequestImage _ _ => true | _ => false end.
(** Every progress report among the effects lies between [lo] and [hi]. *)
Definition progressWithin (lo hi : Z) (e : effect) : bool :=
  match e with
  | Progress _ p => (lo <=? p)%Z && (p <=? hi)%Z
  | _ => true
  end.

(** A list of percentages never goes down. *)
Definition nonDecreasing (ps : list Z) : Prop := Sorted Z.le ps.

(** A list of percentages never goes down and stays between [lo] and [hi]. *)
Definition ascendingWithin (lo hi : Z) (ps : list Z) : Prop :=
  StronglySorted Z.le ps /\ Forall (fun p => (lo <= p <= hi)%Z) ps.

(** The effects of the OCR path: progress, the canvas, requests for images. *)
Definition isOcrEffect (e : effect) : bool := negb (isRequestText e).
Definition isProgress (e : effect) : bool :=
  match e with Progress _ _ => true | _ => false end.
Definition isCanvas (e : effect) : bool :=
  match e with CanvasCreated | CanvasRemoved => true | _ => false end.

(** What a trace shows of the path a run took. The direct-translation path
    announces itself at 50%, sends the extracted strings to the model once,
    and neither touches a canvas nor sends an image. *)
Definition tookDirectPath (texts : list jsstring) (t : list effect) : Prop :=
  In (Progress (lit "Generating keys & translations...") 50) t
  /\ filter isRequestText t = [RequestText texts]
  /\ filter isRequestImage t = []
  /\ filter isCanvas t = [].

(** The OCR path announces itself at 10%, creates the canvas, and never
    sends the extracted strings. *)
Definition tookOcrPath (t : list effect) : Prop :=
  In (Progress (lit "Text extraction insufficient. Starting OCR process...") 10) t
  /\ In CanvasCreated t
  /\ filter isRequestText t = [].

(** ** The consolidation in the words of the specification *)

Section Specification.
Context {host : Host}.

(** The identity of a record: [en_text] trimmed and lower-cased, or
    [ar_text] trimmed when the trimmed [en_text] is empty. *)
Definition identity (item : TranslationPair) : jsstring :=
  match trim (en_text item) with
  | [] => trim (ar_text item)
  | en => toLowerCase en
  end.
End Specification.

(** Keep a record when no earlier record has its identity; [seen] holds the
    identities met so far. *)
Fixpoint firstSeen (id : TranslationPair -> jsstring) (seen : list jsstring)
    (l : list TranslationPair) : list TranslationPair :=
  match l with
  | [] => []
  | item :: rest =>
      if existsb (str_eqb (id item)) seen then firstSeen id seen rest
      else item :: firstSeen id (id item :: seen) rest
  end.

(** The first record seen for each distinct identity, in encounter order. *)
Definition firstPerIdentity (id : TranslationPair -> jsstring)
    (l : list TranslationPair) : list TranslationPair :=
  firstSeen id [] l.

(** The keys of a list of records are in ascending order. *)
Definition orderedByKey (l : list TranslationPair) : Prop :=
  Sorted (fun a b => str_leb a b = true) (map key l).

(** ** Sample documents and model answers *)

Definition pair (k en ar : string) : TranslationPair :=
  {| key := lit k; en_text := lit en; ar_text := lit ar |}.

Definition page (items : list string) (url : string) : pdfPage :=
  {| textItems := map lit items;
     renderOutcome := Returned tt;
     dataURL := lit url |}.

(** A text-based one-page design with six distinct strings; the model
    answers with two records for the same English text. *)
Definition textPdf : world :=
  {| pdfjsLib := true;
     getDocument :=
       Returned [page ["Sign in"; "Email"; "Password"; "Submit"; "Cancel";
                       "Forgot password?"; "Submit"]%string
                      "data:image/jpeg;base64,QUJD"];
     getContext := true;
     respondText := fun _ => Parsed [pair "submit_button" "Submit" "send";
                                     pair "send" "submit " "send"];
     respondImage := fun _ _ => Parsed [] |}.

(** The same design with exactly five distinct strings. *)
Definition fiveTextsPdf : world :=
  {| pdfjsLib := true;
     getDocument :=
       Returned [page ["Sign in"; "Email"; "Password"; "Submit"; "Cancel";
                       "Submit"; " "; "x"]%string
                      "data:image/jpeg;base64,QUJD"];
     getContext := true;
     respondText := fun _ => Parsed [pair "submit_button" "Submit" "send"];
     respondImage := fun _ _ => Parsed [pair "submit_button" "Submit" "send"] |}.

(** A four-page scan whose text layer holds ["Hello"; "Hello"; "Submit"];
    every page shows the same three texts to the model. *)
Definition scannedPdf : world :=
  {| pdfjsLib := true;
     getDocument :=
       Returned [page ["Hello"; "Hello"; "Submit"]%string
                      "data:image/jpeg;base64,QUFB";
                 page [] "data:image/jpeg;base64,QkJC";
                 page [] "data:image/jpeg;base64,Q0ND";
                 page [] "data:image/jpeg;base64,RERE"];
     getContext := true;
     respondText := fun _ => Parsed [];
     respondImage := fun _ _ => Parsed [pair "submit" "Submit" "send";
                                        pair "hello" " hello " "hi";
                                        pair "send" "SUBMIT" "send";
                                        pair "blank" " " "  "] |}.

(** The same scan when the model's service answers the third page with a
    503. *)
Definition scannedPdf503 : world :=
  {| pdfjsLib := true;
     getDocument := getDocument scannedPdf;
     getContext := true;
     respondText := fun _ => Parsed [];
     respondImage := fun index _ =>
       if (index =? 2)%nat
       then CallFailed (JsError (lit "got status: [503] Service Unavailable"))
       else Parsed [pair "submit" "Submit" "send"] |}.

(** The text-based design when the request is refused for its API key. *)
Definition textPdfBadKey : world :=
  {| pdfjsLib := true;
     getDocument := getDocument textPdf;
     getContext := true;
     respondText := fun _ =>
       CallFailed (JsError (lit "API key not valid. Please pass a valid API key."));
     respondImage := fun _ _ => Parsed [] |}.

(** The text-based design when the request gets a 503. *)
Definition textPdf503 : world :=
  {| pdfjsLib := true;
     getDocument := getDocument textPdf;
     getContext := true;
     respondText := fun _ =>
       CallFailed (JsError (lit "got status: [503] Service Unavailable"));
     respondImage := fun _ _ => Parsed [] |}.

(** The scan when every page request is refused for its API key. *)
Definition scannedPdfBadKey : world :=
  {| pdfjsLib := true;
     getDocument := getDocument scannedPdf;
     getContext := true;
     respondText := fun _ => Parsed [];
     respondImage := fun _ _ =>
       CallFailed (JsError (lit "API key not valid. Please pass a valid API key.")) |}.

(** The text-based design when the model finds nothing to translate. *)
Definition textPdfNoRecords : world :=
  {| pdfjsLib := true;
     getDocument := getDocument textPdf;
     getContext := true;
     respondText := fun _ => Parsed [];
     respondImage := fun _ _ => Parsed [] |}.

(** The scan when the model reads no text on any page. *)
Definition scannedPdfNoRecords : world :=
  {| pdfjsLib := true;
     getDocument := getDocument scannedPdf;
     getContext := true;
     respondText := fun _ => Parsed [];
     respondImage := fun _ _ => Parsed [] |}.

(** A one-page scan whose page fails to render. *)
Definition unrenderablePdf : world :=
  {| pdfjsLib := true;
     getDocument :=
       Returned [{| textItems := [];
                    renderOutcome := Thrown (JsError (lit "Invalid page request"));
                    dataURL := [] |}];
     getContext := true;
     respondText := fun _ => Parsed [];
     respondImage := fun _ _ => Parsed [] |}.

(** ** [getPdfPageCount] *)

Definition getPdfPageCount (w : world) : M nat :=
  if negb (pdfjsLib w) then throwError "pdf.js library is not loaded."
  else
    pdf <- await (getDocument w) ;;
    ret (length pdf).

(** ** The parts of the OCR path, page by page *)

(** The image parts the rasterization collects from the pages it rendered. *)
Definition imagePartsOf (pdf : list pdfPage) : list imagePart :=
  fold_left pushImagePart (map dataURL pdf) [].

(** What [processPage] resolves to when it does not throw: the parsed
    records, or nothing for a page that failed. *)
Definition pageRecords (w : world) (part : imagePart) (index : nat)
  : list TranslationPair :=
  match respondImage w index part with
  | Parsed pairs => pairs
  | CallFailed _ | ParseFailed _ => []
  end.

(** [processPage] throws for this page. *)
Definition criticalPage (w : world) (part : imagePart) (index : nat) : bool :=
  match respondImage w index part with
  | Parsed _ => false
  | CallFailed e | ParseFailed e => isCriticalOcr e
  end.

(** No more than [n] image requests follow one another in a trace; [run]
    counts those that end the trace read so far. *)
Fixpoint requestRuns (n : nat) (t : list effect) (run : nat) : bool :=
  match t with
  | [] => true
  | e :: rest =>
      if isRequestImage e
      then (S run <=? n)%nat && requestRuns n rest (S run)
      else requestRuns n rest 0
  end.

(** The error of the first page that does not render, if there is one. *)
Fixpoint firstRenderError (pages : list pdfPage) : option thrown :=
  match pages with
  | [] => None
  | page :: rest =>
      match renderOutcome page with
      | Thrown e => Some e
      | Returned _ => firstRenderError rest
      end
  end.

(** ** [ResultFile.tsx]: [getFileIcon] *)

Inductive icon := FileJsonIcon | FileDartIcon.

(** [s.endsWith(suffix)] *)
Definition endsWith (suffix s : jsstring) : bool :=
  startsWith (rev suffix) (rev s).

Definition getFileIcon (filename : jsstring) : option icon :=
  if endsWith (lit ".json") filename then Some FileJsonIcon
  else if endsWith (lit ".dart") filename then Some FileDartIcon
  else None.

(** ** [App.tsx]: the state of the component and its handlers *)

(** The selected [File], as far as the component reads it. *)
Record File := { type : jsstring }.

Record progressState := {
  message : jsstring;
  percentage : Z
}.

(** The state hooks of [App], and the value of the file input behind
    [fileInputRef] ([None] while the input is not mounted). *)
Record AppState := {
  file : option File;
  pageCount : nat;
  isDragging : bool;
  isLoading : bool;
  error : option jsstring;
  generatedFiles : list GeneratedFile;
  progress : progressState;
  isKeyReady : bool;
  fileInput : option jsstring
}.

Definition setFile (v : option File) (s : AppState) : AppState :=
  {| file := v; pageCount := pageCount s; isDragging := isDragging s;
     isLoading := isLoading s; error := error s;
     generatedFiles := generatedFiles s; progress := progress s;
     isKeyReady := isKeyReady s; fileInput := fileInput s |}.

Definition setPageCount (v : nat) (s : AppState) : AppState :=
  {| file := file s; pageCount := v; isDragging := isDragging s;
     isLoading := isLoading s; error := error s;
     generatedFiles := generatedFiles s; progress := progress s;
     isKeyReady := isKeyReady s; fileInput := fileInput s |}.

Definition setIsLoading (v : bool) (s : AppState) : AppState :=
  {| file := file s; pageCount := pageCount s; isDragging := isDragging s;
     isLoading := v; error := error s;
     generatedFiles := generatedFiles s; progress := progress s;
     isKeyReady := isKeyReady s; fileInput := fileInput s |}.

Definition setError (v : option jsstring) (s : AppState) : AppState :=
  {| file := file s; pageCount := pageCount s; isDragging := isDragging s;
     isLoading := isLoading s; error := v;
     generatedFiles := generatedFiles s; progress := progress s;
     isKeyReady := isKeyReady s; fileInput := fileInput s |}.

Definition setGeneratedFiles (v : list GeneratedFile) (s : AppState)
  : AppState :=
  {| file := file s; pageCount := pageCount s; isDragging := isDragging s;
     isLoading := isLoading s; error := error s;
     generatedFiles := v; progress := progress s;
     isKeyReady := isKeyReady s; fileInput := fileInput s |}.

Definition setProgress (v : progressState) (s : AppState) : AppState :=
  {| file := file s; pageCount := pageCount s; isDragging := isDragging s;
     isLoading := isLoading s; error := error s;
     generatedFiles := generatedFiles s; progress := v;
     isKeyReady := isKeyReady s; fileInput := fileInput s |}.

Definition setIsKeyReady (v : bool) (s : AppState) : AppState :=
  {| file := file s; pageCount := pageCount s; isDragging := isDragging s;
     isLoading := isLoading s; error := error s;
     generatedFiles := generatedFiles s; progress := progress s;
     isKeyReady := v; fileInput := fileInput s |}.

(** [if (fileInputRef.current) fileInputRef.current.value = ''] *)
Definition clearFileInput (s : AppState) : AppState :=
  {| file := file s; pageCount := pageCount s; isDragging := isDragging s;
     isLoading := isLoading s; error := error s;
     generatedFiles := generatedFiles s; progress := progress s;
     isKeyReady := isKeyReady s;
     fileInput := match fileInput s with
                  | Some _ => Some []
                  | None => None
                  end |}.

Definition resetState (s : AppState) : AppState :=
  clearFileInput
    (setProgress {| message := []; percentage := 0 |}
       (setGeneratedFiles []
          (setError None
             (setPageCount 0
                (setFile None s))))).

(** [handleFileSelect(selectedFile)], the file being read in [w]. *)
Definition handleFileSelect (w : world) (selectedFile : option File)
    (s : AppState) : AppState :=
  match selectedFile with
  | None => s
  | Some f =>
      if negb (str_eqb (type f) (lit "application/pdf"))
      then resetState (setError (Some (lit "Please upload a valid PDF file.")) s)
      else
        let s := setFile (Some f) (resetState s) in
        match result (getPdfPageCount w) with
        | Returned count => setPageCount count s
        | Thrown _ =>
            resetState
              (setError (Some (lit "Could not read PDF metadata.")) s)
        end
  end.

(** The callback [handleProcessClick] hands to the service:
    [setProgress(prev => ({ message, percentage: percentage ?? prev.percentage }))].
    The service always passes a percentage. *)
Definition reportProgress (s : AppState) (e : effect) : AppState :=
  match e with
  | Progress m p => setProgress {| message := m; percentage := p |} s
  | _ => s
  end.

Definition invalidKeyMessage : string :=
  "Your API key is not valid. Please select a new one to continue.".

(** The [catch] of [handleProcessClick]. *)
Definition showFailure (err : thrown) (s : AppState) : AppState :=
  match err with
  | JsError m =>
      if includes (lit "API key") m
         || includes (lit "Requested entity was not found") m
      then setIsKeyReady false (setError (Some (lit invalidKeyMessage)) s)
      else setError (Some m) s
  | NonError => setError (Some (lit "An unknown error occurred.")) s
  end.

Section AppHandlers.
Context {host : Host}.

(** [handleProcessClick], the selected file being processed in [w]. *)
Definition handleProcessClick (w : world) (s : AppState) : AppState :=
  match file s with
  | None => setError (Some (lit "Please select a file first.")) s
  | Some _ =>
      let s :=
        setProgress {| message := lit "Initializing..."; percentage := 0 |}
          (setGeneratedFiles [] (setError None (setIsLoading true s))) in
      let run := processPdfForLocalization w in
      let s := fold_left reportProgress (trace run) s in
      setIsLoading false
        match result run with
        | Returned files =>
            setProgress {| message := lit "Completed!"; percentage := 100 |}
              (setGeneratedFiles files s)
        | Thrown err => showFailure err s
        end
  end.
End AppHandlers.

(** ** More sample documents *)

(** A document without pages. *)
Definition emptyPdf : world :=
  {| pdfjsLib := true;
     getDocument := Returned [];
     getContext := true;
     respondText := fun _ => Parsed [];
     respondImage := fun _ _ => Parsed [] |}.

(** A seven-page scan. The model reads a title on every page but two: the
    request for the fourth page fails with a network error, and the answer
    for the sixth does not parse. *)
Definition longScan : world :=
  {| pdfjsLib := true;
     getDocument :=
       Returned [page [] "data:image/jpeg;base64,MQ==";
                 page [] "data:image/jpeg;base64,Mg==";
                 page [] "data:image/jpeg;base64,Mw==";
                 page [] "data:image/jpeg;base64,NA==";
                 page [] "data:image/jpeg;base64,NQ==";
                 page [] "data:image/jpeg;base64,Ng==";
                 page [] "data:image/jpeg;base64,Nw=="];
     getContext := true;
     respondText := fun _ => Parsed [];
     respondImage := fun index _ =>
       if (index =? 3)%nat then CallFailed (JsError (lit "Failed to fetch"))
       else if (index =? 5)%nat
       then ParseFailed (JsError (lit "Unexpected end of JSON input"))
       else Parsed [pair "title" "Title" "t"; pair "page" "Page" "p"] |}.

(** A file that pdf.js cannot open. *)
Definition brokenPdf : world :=
  {| pdfjsLib := true;
     getDocument := Thrown (JsError (lit "Invalid PDF structure."));
     getContext := true;
     respondText := fun _ => Parsed [];
     respondImage := fun _ _ => Parsed [] |}.

(** The image part with the given base64 data. *)
Definition jpeg (base64Data : string) : imagePart :=
  {| data := lit base64Data; mimeType := lit "image/jpeg" |}.

(** The state of [App] once a PDF is selected, before a run. *)
Definition readyState : AppState :=
  {| file := Some {| type := lit "application/pdf" |};
     pageCount := 4;
     isDragging := false;
     isLoading := false;
     error := None;
     generatedFiles := [];
     progress := {| message := []; percentage := 0 |};
     isKeyReady := true;
     fileInput := None |}.

(** The state of [App] before any file is selected. *)
Definition initialState : AppState :=
  {| file := None;
     pageCount := 0;
     isDragging := false;
     isLoading := false;
     error := None;
     generatedFiles := [];
     progress := {| message := []; percentage := 0 |};
     isKeyReady := true;
     fileInput := Some [] |}.

(** * Properties *)

(** ** Strings and maps *)

Lemma str_eqb_eq (a b : jsstring) : str_eqb a b = true <-> a = b.
Proof.
  unfold str_eqb. destruct (jsstring_eq_dec a b); split; congruence.
Qed.

Lemma str_eqb_refl (a : jsstring) : str_eqb a a = true.
Proof. now apply str_eqb_eq. Qed.

Lemma str_eqb_sym (a b : jsstring) : str_eqb a b = str_eqb b a.
Proof.
  unfold str_eqb.
  destruct (jsstring_eq_dec a b), (jsstring_eq_dec b a); congruence.
Qed.

Lemma existsb_str_eqb_In (k : jsstring) (l : list jsstring) :
  existsb (str_eqb k) l = true <-> In k l.
Proof.
  rewrite existsb_exists. split.
  - intros [x [Hx E]]. apply str_eqb_eq in E. now subst.
  - intros H. exists k. split; [assumption | apply str_eqb_refl].
Qed.

Lemma truthy_nil (s : jsstring) : truthy s = false <-> s = [].
Proof. destruct s; simpl; split; congruence. Qed.

Lemma map_has_In {V} (k : jsstring) (m : jsMap V) :
  map_has k m = true <-> In k (map fst m).
Proof.
  unfold map_has. rewrite existsb_exists, in_map_iff. split.
  - intros [e [He E]]. apply str_eqb_eq in E. now exists e.
  - intros [e [E He]]. exists e. split; [assumption|]. now apply str_eqb_eq.
Qed.

Lemma map_set_fresh {V} (k : jsstring) (v : V) (m : jsMap V) :
  map_has k m = false -> map_set k v m = m ++ [(k, v)].
Proof. intros H. unfold map_set. now rewrite H. Qed.

(** ** The consolidation keeps the first record of each identity *)

Lemma firstSeen_seen_ext id (l : list TranslationPair) :
  forall seen seen',
    (forall k, In k seen <-> In k seen') ->
    firstSeen id seen l = firstSeen id seen' l.
Proof.
  induction l as [|item rest IH]; intros seen seen' E; simpl; [reflexivity|].
  assert (B : existsb (str_eqb (id item)) seen
              = existsb (str_eqb (id item)) seen').
  { apply eq_true_iff_eq. rewrite !existsb_str_eqb_In. apply E. }
  rewrite B. destruct (existsb (str_eqb (id item)) seen').
  - now apply IH.
  - f_equal. apply IH. intros k. simpl. now rewrite E.
Qed.

Lemma firstSeen_id_ext id id' (l : list TranslationPair) :
  (forall item, id item = id' item) ->
  forall seen, firstSeen id seen l = firstSeen id' seen l.
Proof.
  intros E. induction l as [|item rest IH]; intros seen; simpl; [reflexivity|].
  rewrite E, !IH. reflexivity.
Qed.

Lemma firstSeen_incl id (l : list TranslationPair) :
  forall seen item, In item (firstSeen id seen l) -> In item l.
Proof.
  induction l as [|x rest IH]; intros seen item; simpl; [tauto|].
  destruct (existsb (str_eqb (id x)) seen); simpl.
  - intros H. right. eapply IH, H.
  - intros [H|H]; [now left | right; eapply IH, H].
Qed.

Lemma firstSeen_fresh id (l : list TranslationPair) :
  forall seen item, In item (firstSeen id seen l) -> ~ In (id item) seen.
Proof.
  induction l as [|x rest IH]; intros seen item; simpl; [tauto|].
  destruct (existsb (str_eqb (id x)) seen) eqn:B.
  - apply IH.
  - intros [H|H].
    + subst x. intros Hin. apply existsb_str_eqb_In in Hin. congruence.
    + intros Hin. apply (IH _ _ H). now right.
Qed.

Lemma firstSeen_NoDup id (l : list TranslationPair) :
  forall seen, NoDup (map id (firstSeen id seen l)).
Proof.
  induction l as [|x rest IH]; intros seen; simpl; [constructor|].
  destruct (existsb (str_eqb (id x)) seen); [apply IH|].
  simpl. constructor; [|apply IH].
  intros Hin. apply in_map_iff in Hin. destruct Hin as [y [E Hy]].
  apply firstSeen_fresh in Hy. apply Hy. left. congruence.
Qed.

Lemma firstSeen_idempotent id (l : list TranslationPair) :
  forall seen, firstSeen id seen (firstSeen id seen l) = firstSeen id seen l.
Proof.
  induction l as [|x rest IH]; intros seen; simpl; [reflexivity|].
  destruct (existsb (str_eqb (id x)) seen) eqn:B; [apply IH|].
  simpl. rewrite B. f_equal. apply IH.
Qed.

Lemma existsb_str_eqb_ext (k : jsstring) (s s' : list jsstring) :
  (forall x, In x s <-> In x s') ->
  existsb (str_eqb k) s = existsb (str_eqb k) s'.
Proof.
  intros E. apply eq_true_iff_eq. rewrite !existsb_str_eqb_In. apply E.
Qed.

(** A record at the end is kept exactly when its identity was not seen and
    no record before it has it. *)
Lemma firstSeen_snoc id (l : list TranslationPair) :
  forall seen item,
    firstSeen id seen (l ++ [item])
    = firstSeen id seen l
      ++ (if existsb (str_eqb (id item)) (seen ++ map id l) then []
          else [item]).
Proof.
  induction l as [|x rest IH]; intros seen item; simpl.
  - now rewrite app_nil_r.
  - destruct (existsb (str_eqb (id x)) seen) eqn:B.
    + rewrite IH. f_equal.
      rewrite (existsb_str_eqb_ext _ (seen ++ id x :: map id rest)
                 (seen ++ map id rest)); [reflexivity|].
      apply existsb_str_eqb_In in B. intros k.
      rewrite !in_app_iff. simpl. intuition congruence.
    + rewrite IH.
      rewrite (existsb_str_eqb_ext _ ((id x :: seen) ++ map id rest)
                 (seen ++ id x :: map id rest)); [reflexivity|].
      intros k. simpl. rewrite !in_app_iff. simpl. tauto.
Qed.

Lemma filter_all {A} (p : A -> bool) (l : list A) :
  (forall x, In x l -> p x = true) -> filter p l = l.
Proof.
  induction l as [|x rest IH]; intros H; simpl; [reflexivity|].
  rewrite (H x (or_introl eq_refl)). f_equal. apply IH.
  intros y Hy. apply H. now right.
Qed.

Section ConsolidationProperties.
Context {host : Host}.

Lemma fold_addTranslation (l : list TranslationPair) :
  forall m : jsMap TranslationPair,
    map_values (fold_left addTranslation l m)
    = map_values m ++ firstSeen uniqueKey (map fst m) (filter hasKey l).
Proof.
  induction l as [|item rest IH]; intros m; simpl.
  - now rewrite app_nil_r.
  - rewrite IH. unfold addTranslation.
    change (hasKey item) with (truthy (uniqueKey item)).
    destruct (truthy (uniqueKey item)) eqn:T; simpl; [|reflexivity].
    assert (B : existsb (str_eqb (uniqueKey item)) (map fst m)
                = map_has (uniqueKey item) m).
    { apply eq_true_iff_eq. now rewrite existsb_str_eqb_In, map_has_In. }
    rewrite B. destruct (map_has (uniqueKey item) m) eqn:Hm; simpl.
    + reflexivity.
    + rewrite map_set_fresh by assumption.
      unfold map_values. rewrite map_app. simpl. rewrite <- app_assoc. simpl.
      do 2 f_equal. apply firstSeen_seen_ext.
      intros k. rewrite map_app, in_app_iff. simpl. tauto.
Qed.

(** The consolidation, as one pass that skips the records without a key
    and those whose key was met before. *)
Lemma consolidate_firstSeen (l : list TranslationPair) :
  consolidate l = firstPerIdentity uniqueKey (filter hasKey l).
Proof. unfold consolidate. now rewrite fold_addTranslation. Qed.

Lemma consolidate_incl (l : list TranslationPair) (item : TranslationPair) :
  In item (consolidate l) -> In item l /\ hasKey item = true.
Proof.
  rewrite consolidate_firstSeen. intros H.
  apply firstSeen_incl in H. now apply filter_In in H.
Qed.

Lemma consolidate_NoDup (l : list TranslationPair) :
  NoDup (map uniqueKey (consolidate l)).
Proof. rewrite consolidate_firstSeen. apply firstSeen_NoDup. Qed.

(** The consolidation, one record at a time: a record is returned, after
    those returned before it, exactly when its key is not empty and no
    earlier record has the same key. *)
Lemma consolidate_snoc (l : list TranslationPair) (item : TranslationPair) :
  consolidate (l ++ [item])
  = consolidate l
    ++ (if truthy (uniqueKey item)
           && negb (existsb (str_eqb (uniqueKey item)) (map uniqueKey l))
        then [item] else []).
Proof.
  rewrite !consolidate_firstSeen. unfold firstPerIdentity.
  rewrite filter_app. cbn [filter].
  change (hasKey item) with (truthy (uniqueKey item)).
  destruct (truthy (uniqueKey item)) eqn:T; cbn [andb];
    [|now rewrite !app_nil_r].
  rewrite firstSeen_snoc. cbn [app]. f_equal.
  assert (E : existsb (str_eqb (uniqueKey item))
                      (map uniqueKey (filter hasKey l))
              = existsb (str_eqb (uniqueKey item)) (map uniqueKey l)).
  { apply eq_true_iff_eq. rewrite !existsb_str_eqb_In, !in_map_iff.
    split; intros [x [Ex Hx]].
    - apply filter_In in Hx. exists x. tauto.
    - exists x. split; [assumption|]. apply filter_In. split; [assumption|].
      unfold hasKey. now rewrite Ex. }
  rewrite E.
  now destruct (existsb (str_eqb (uniqueKey item)) (map uniqueKey l)).
Qed.
End ConsolidationProperties.

Section ConsolidationClaims.
Context {host : Host}.

(** C8. The cross-page consolidation is idempotent: applied to its own
    output, it returns that output unchanged. *)
Theorem consolidate_idempotent (l : list TranslationPair) :
  consolidate (consolidate l) = consolidate l.
Proof.
  rewrite (consolidate_firstSeen (consolidate l)).
  rewrite filter_all.
  - rewrite consolidate_firstSeen. apply firstSeen_idempotent.
  - intros item H. now apply consolidate_incl in H.
Qed.

Lemma addTranslation_keys (l : list TranslationPair) :
  forall m : jsMap TranslationPair,
    (forall k, In k (map fst m) -> truthy k = true) ->
    forall k, In k (map fst (fold_left addTranslation l m)) -> truthy k = true.
Proof.
  induction l as [|item rest IH]; intros m Hm k; simpl; [apply Hm|].
  apply IH. intros k'. unfold addTranslation.
  destruct (truthy (uniqueKey item)) eqn:T; simpl; [|apply Hm].
  destruct (map_has (uniqueKey item) m) eqn:Hh; simpl; [apply Hm|].
  rewrite map_set_fresh by assumption.
  rewrite map_app, in_app_iff. simpl.
  intros [H|[H|[]]]; [now apply Hm | subst k'; exact T].
Qed.
End ConsolidationClaims.

Section IdentityClaims.
Context {host : Host}.

(** Lower-casing never empties a string, nor fills the empty one. *)
Hypothesis toLowerCase_empty : forall s, toLowerCase s = [] <-> s = [].

Lemma uniqueKey_identity (item : TranslationPair) :
  uniqueKey item = identity item.
Proof.
  unfold uniqueKey, identity, str_or.
  destruct (trim (en_text item)) as [|c en] eqn:E.
  - now rewrite (proj2 (toLowerCase_empty []) eq_refl).
  - destruct (toLowerCase (c :: en)) eqn:L; [|reflexivity].
    apply (proj1 (toLowerCase_empty _)) in L. discriminate L.
Qed.

(** C2, amended. The identity the consolidation computes for a record is
    [en_text] trimmed and lower-cased, or [ar_text] trimmed when the
    trimmed [en_text] is empty. The consolidation returns, in encounter
    order, exactly the first record seen for each distinct non-empty
    identity, and none of the records whose identity is empty: a record is
    returned, after those returned before it, exactly when its identity is
    not empty and no earlier record has that identity. *)
Theorem consolidate_first_per_identity (l : list TranslationPair) :
  (forall item, uniqueKey item = identity item)
  /\ consolidate l
     = firstPerIdentity identity
         (filter (fun item => truthy (identity item)) l)
  /\ consolidate [] = []
  /\ (forall item,
         consolidate (l ++ [item])
         = consolidate l
           ++ (if truthy (identity item)
                  && negb (existsb (str_eqb (identity item)) (map identity l))
               then [item] else [])).
Proof.
  split; [exact uniqueKey_identity|]. split; [|split; [reflexivity|]].
  - rewrite consolidate_firstSeen. unfold firstPerIdentity.
    rewrite (firstSeen_id_ext uniqueKey identity _ uniqueKey_identity).
    f_equal. apply filter_ext. intros item. unfold hasKey.
    now rewrite uniqueKey_identity.
  - intros item. rewrite consolidate_snoc, uniqueKey_identity.
    now rewrite (map_ext _ _ uniqueKey_identity).
Qed.
End IdentityClaims.

(** ** Computations *)

Lemma bind_ret_l {A B} (a : A) (f : A -> M B) : bind (ret a) f = f a.
Proof. unfold bind, ret. now destruct (f a). Qed.

Lemma bind_assoc {A B C} (m : M A) (f : A -> M B) (g : B -> M C) :
  bind (bind m f) g = bind m (fun a => bind (f a) g).
Proof.
  destruct m as [t [a|e]]; simpl; [|reflexivity].
  destruct (f a) as [t' [b|e]]; simpl; [|reflexivity].
  destruct (g b) as [t'' r]. now rewrite app_assoc.
Qed.

Lemma bind_ext {A B} (m : M A) (f g : A -> M B) :
  (forall a, f a = g a) -> bind m f = bind m g.
Proof. intros E. destruct m as [t [a|e]]; simpl; [now rewrite E | reflexivity]. Qed.

Lemma result_bind {A B} (m : M A) (f : A -> M B) :
  result (bind m f)
  = match result m with
    | Returned a => result (f a)
    | Thrown e => Thrown e
    end.
Proof.
  destruct m as [t [a|e]]; simpl; [|reflexivity]. now destruct (f a).
Qed.

Lemma trace_bind {A B} (m : M A) (f : A -> M B) :
  trace (bind m f)
  = trace m ++ match result m with
               | Returned a => trace (f a)
               | Thrown _ => []
               end.
Proof.
  destruct m as [t [a|e]]; simpl; [|now rewrite app_nil_r]. now destruct (f a).
Qed.

Lemma M_eta {A} (m : M A) : m = (trace m, result m).
Proof. now destruct m. Qed.

(** ** Extraction *)

Lemma extract_trace (w : world) : trace (extractTextFromPdf w) = [].
Proof.
  unfold extractTextFromPdf.
  destruct (pdfjsLib w); simpl; [|reflexivity].
  now destruct (getDocument w).
Qed.

Lemma extract_returned (w : world) (texts : list jsstring) :
  result (extractTextFromPdf w) = Returned texts ->
  extractTextFromPdf w = ret texts
  /\ pdfjsLib w = true
  /\ exists pdf, getDocument w = Returned pdf /\ texts = fold_left addPage pdf [].
Proof.
  intros H. split.
  - rewrite (M_eta (extractTextFromPdf w)), extract_trace, H. reflexivity.
  - unfold extractTextFromPdf in H.
    destruct (pdfjsLib w); simpl in H; [|discriminate]. split; [reflexivity|].
    destruct (getDocument w) as [pdf|e]; simpl in H; [|discriminate].
    exists pdf. split; [reflexivity|]. congruence.
Qed.

(** ** The effects of each stage *)

Lemma renderPages_trace (numPages : nat) (pages : list pdfPage) :
  forall i parts, forallb isProgress (trace (renderPages numPages i pages parts)) = true.
Proof.
  induction pages as [|page rest IH]; intros i parts; simpl; [reflexivity|].
  destruct (renderOutcome page) as [[]|e]; simpl; [|reflexivity].
  specialize (IH (S i) (pushImagePart parts (dataURL page))).
  destruct (renderPages numPages (S i) rest _) as [t r]. exact IH.
Qed.

Lemma forallb_weaken {A} (p q : A -> bool) (l : list A) :
  (forall x, p x = true -> q x = true) ->
  forallb p l = true -> forallb q l = true.
Proof.
  intros H. rewrite !forallb_forall. intros Hp x Hx. apply H, Hp, Hx.
Qed.

Lemma filter_none {A} (p q : A -> bool) (l : list A) :
  (forall x, q x = true -> p x = false) ->
  forallb q l = true -> filter p l = [].
Proof.
  intros H. induction l as [|x rest IH]; simpl; [reflexivity|].
  intros Hq. apply andb_prop in Hq. destruct Hq as [Hx Hrest].
  rewrite (H x Hx). now apply IH.
Qed.

Lemma convert_trace (w : world) :
  forallb isOcrEffect (trace (convertPdfPagesToImageParts w)) = true.
Proof.
  unfold convertPdfPagesToImageParts.
  destruct (pdfjsLib w); simpl; [|reflexivity].
  destruct (getDocument w) as [pdf|e]; simpl; [|reflexivity].
  destruct (getContext w); simpl; [|reflexivity].
  pose proof (renderPages_trace (length pdf) pdf 1 []) as H.
  destruct (renderPages (length pdf) 1 pdf []) as [t [parts|e]]; simpl in *.
  - rewrite forallb_app. simpl. rewrite andb_true_r.
    revert H. apply forallb_weaken. now intros [].
  - revert H. apply forallb_weaken. now intros [].
Qed.

Lemma processPage_trace (w : world) (part : imagePart) (index : nat) :
  trace (processPage w part index) = [RequestImage index part].
Proof.
  unfold processPage. rewrite trace_bind. simpl.
  destruct (respondImage w index part) as [e|e|pairs];
    try destruct (isCriticalOcr e); reflexivity.
Qed.

Lemma promiseAll_trace {A} (p : effect -> bool) (promises : list (M A)) :
  (forall m, In m promises -> forallb p (trace m) = true) ->
  forallb p (trace (promiseAll promises)) = true.
Proof.
  induction promises as [|[t o] rest IH]; intros H; simpl; [reflexivity|].
  specialize (IH (fun m Hm => H m (or_intror Hm))).
  destruct (promiseAll rest) as [t' os]. simpl in *.
  rewrite forallb_app, IH, andb_true_r.
  exact (H (t, o) (or_introl eq_refl)).
Qed.

Lemma mapi_In {A B} (f : A -> nat -> B) (l : list A) :
  forall start y, In y (mapi f start l) -> exists x index, y = f x index.
Proof.
  induction l as [|x rest IH]; intros start y; simpl; [tauto|].
  intros [H|H]; [now exists x, start | eapply IH, H].
Qed.

Lemma ocrBatches_trace (w : world) (imageParts : list imagePart) (fuel : nat) :
  forall i all,
    forallb isOcrEffect (trace (ocrBatches w imageParts fuel i all)) = true.
Proof.
  induction fuel as [|fuel IH]; intros i all; cbn [ocrBatches]; [reflexivity|].
  destruct (i <? length imageParts)%nat; [|reflexivity].
  rewrite trace_bind. cbn [onProgress emit trace result fst snd app forallb isOcrEffect isRequestText negb andb].
  rewrite trace_bind, forallb_app.
  apply andb_true_intro. split.
  - apply promiseAll_trace. intros m Hm.
    apply mapi_In in Hm. destruct Hm as [part [index ->]].
    now rewrite processPage_trace.
  - destruct (result (promiseAll _)); [apply IH | reflexivity].
Qed.

Section PathEffects.
Context {host : Host}.

Lemma ocr_trace (w : world) :
  forallb isOcrEffect (trace (generateLocalizationFromPdfImages w)) = true.
Proof.
  unfold generateLocalizationFromPdfImages.
  rewrite trace_bind, forallb_app, convert_trace. simpl.
  destruct (result (convertPdfPagesToImageParts w)) as [parts|e];
    [|reflexivity].
  destruct (length parts =? 0)%nat; [reflexivity|].
  rewrite trace_bind, forallb_app, ocrBatches_trace. simpl.
  now destruct (result (ocrBatches w parts (length parts) 0 [])).
Qed.
End PathEffects.

(** ** The controller *)

Lemma generateKeys_trace (w : world) (texts : list jsstring) :
  trace (generateKeysAndTranslations w texts) = [RequestText texts].
Proof.
  unfold generateKeysAndTranslations. rewrite trace_bind. simpl.
  destruct (respondText w texts) as [e|e|pairs];
    try destruct (isCriticalText e); reflexivity.
Qed.

Section Controller.
Context {host : Host}.

(** The check that follows either path. *)
Let check (data : list TranslationPair) : M (list TranslationPair) :=
  if (length data =? 0)%nat
  then throwError noLocalizableText
  else ret data.

Lemma check_trace (data : list TranslationPair) : trace (check data) = [].
Proof. unfold check. now destruct (length data =? 0)%nat. Qed.

Lemma localizationData_direct (w : world) (texts : list jsstring) :
  result (extractTextFromPdf w) = Returned texts ->
  (5 < length texts)%nat ->
  localizationData w
  = (onProgress (lit "Extracting text from PDF...") 5 ;;
     onProgress (lit "Generating keys & translations...") 50 ;;
     data <- generateKeysAndTranslations w texts ;;
     check data).
Proof.
  intros H L. apply extract_returned in H. destruct H as [E _].
  unfold localizationData. apply bind_ext. intros _.
  rewrite E, bind_ret_l.
  apply Nat.ltb_lt in L. rewrite L. now rewrite bind_assoc.
Qed.

Lemma localizationData_ocr (w : world) (texts : list jsstring) :
  result (extractTextFromPdf w) = Returned texts ->
  (length texts <= 5)%nat ->
  localizationData w
  = (onProgress (lit "Extracting text from PDF...") 5 ;;
     onProgress
       (lit "Text extraction insufficient. Starting OCR process...") 10 ;;
     data <- generateLocalizationFromPdfImages w ;;
     check data).
Proof.
  intros H L. apply extract_returned in H. destruct H as [E _].
  unfold localizationData. apply bind_ext. intros _.
  rewrite E, bind_ret_l.
  apply Nat.ltb_ge in L. rewrite L. now rewrite bind_assoc.
Qed.

(** After the records are found, only the 95% report follows. *)
Lemma process_trace (w : world) :
  trace (processPdfForLocalization w)
  = trace (localizationData w)
    ++ match result (localizationData w) with
       | Returned _ => [Progress (lit "Constructing Flutter files...") 95]
       | Thrown _ => []
       end.
Proof.
  unfold processPdfForLocalization. rewrite trace_bind.
  now destruct (result (localizationData w)).
Qed.

Lemma direct_trace (w : world) (texts : list jsstring) :
  result (extractTextFromPdf w) = Returned texts ->
  (5 < length texts)%nat ->
  exists tail,
    trace (processPdfForLocalization w)
    = Progress (lit "Extracting text from PDF...") 5
      :: Progress (lit "Generating keys & translations...") 50
      :: RequestText texts :: tail
    /\ forallb isProgress tail = true.
Proof.
  intros H L. rewrite process_trace.
  rewrite (localizationData_direct w texts H L).
  rewrite !trace_bind, !result_bind, generateKeys_trace. simpl.
  destruct (result (generateKeysAndTranslations w texts)) as [data|e]; simpl.
  - rewrite check_trace. simpl.
    eexists. split; [reflexivity|]. now destruct (result (check data)).
  - eexists. split; reflexivity.
Qed.

Lemma ocr_path_trace (w : world) (texts : list jsstring) :
  result (extractTextFromPdf w) = Returned texts ->
  (length texts <= 5)%nat ->
  exists tail,
    trace (processPdfForLocalization w)
    = Progress (lit "Extracting text from PDF...") 5
      :: Progress
           (lit "Text extraction insufficient. Starting OCR process...") 10
      :: trace (generateLocalizationFromPdfImages w) ++ tail
    /\ forallb isProgress tail = true.
Proof.
  intros H L. rewrite process_trace.
  rewrite (localizationData_ocr w texts H L).
  rewrite !trace_bind, !result_bind. simpl.
  destruct (result (generateLocalizationFromPdfImages w)) as [data|e]; simpl.
  - rewrite check_trace. simpl. rewrite <- app_assoc.
    eexists. split; [reflexivity|]. now destruct (result (check data)).
  - rewrite <- app_assoc. eexists. split; reflexivity.
Qed.

Lemma ocr_creates_canvas (w : world) (pdf : list pdfPage) :
  pdfjsLib w = true -> getDocument w = Returned pdf ->
  In CanvasCreated (trace (generateLocalizationFromPdfImages w)).
Proof.
  intros Hlib Hdoc. unfold generateLocalizationFromPdfImages.
  rewrite trace_bind. apply in_or_app. left.
  unfold convertPdfPagesToImageParts. rewrite Hlib, Hdoc. simpl.
  destruct (getContext w); simpl.
  - destruct (renderPages (length pdf) 1 pdf []) as [t [parts|e]]; now left.
  - now left.
Qed.

(** C1. After text extraction the pipeline branches on the number of
    unique extracted strings: more than 5, it takes the
    direct-translation path; 5 or fewer, the image-based OCR path. *)
Theorem branch_on_text_count (w : world) (texts : list jsstring) :
  result (extractTextFromPdf w) = Returned texts ->
  ((5 < length texts)%nat ->
   tookDirectPath texts (trace (processPdfForLocalization w)))
  /\ ((length texts <= 5)%nat ->
      tookOcrPath (trace (processPdfForLocalization w))).
Proof.
  intros H. split; intros L.
  - destruct (direct_trace w texts H L) as [tail [-> Htail]].
    unfold tookDirectPath. simpl. repeat split.
    + right. now left.
    + f_equal. revert Htail. apply filter_none. now intros [].
    + revert Htail. apply filter_none. now intros [].
    + revert Htail. apply filter_none. now intros [].
  - destruct (ocr_path_trace w texts H L) as [tail [-> Htail]].
    destruct (extract_returned w texts H) as [_ [Hlib [pdf [Hdoc _]]]].
    unfold tookOcrPath. repeat split.
    + right. now left.
    + right. right. apply in_or_app. left.
      now apply ocr_creates_canvas with pdf.
    + simpl. rewrite filter_app.
      rewrite (filter_none isRequestText isOcrEffect
                 (trace (generateLocalizationFromPdfImages w)));
        [| intros e; unfold isOcrEffect; now destruct (isRequestText e)
         | apply ocr_trace ].
      revert Htail. apply filter_none. now intros [].
Qed.
End Controller.

Section OcrResult.
Context {host : Host}.

(** What the OCR path returns is a consolidation. *)
Lemma ocr_result_consolidated (w : world) (data : list TranslationPair) :
  result (generateLocalizationFromPdfImages w) = Returned data ->
  exists allTranslations, data = consolidate allTranslations.
Proof.
  unfold generateLocalizationFromPdfImages. rewrite result_bind.
  destruct (result (convertPdfPagesToImageParts w)) as [parts|e];
    [|discriminate].
  destruct (length parts =? 0)%nat; [discriminate|].
  rewrite result_bind.
  destruct (result (ocrBatches w parts (length parts) 0 [])) as [all|e];
    [|discriminate].
  simpl. intros H. exists all. congruence.
Qed.

(** The empty string is its own lower case. *)
Hypothesis toLowerCase_nil : toLowerCase [] = [].

(** C10. A record whose [en_text] and [ar_text] both trim to the empty
    string is dropped by the consolidation: it is not in the result, no
    entry of the map has the empty key, and it is not among the records the
    OCR path returns for the output files. *)
Theorem blank_record_dropped (item : TranslationPair) :
  trim (en_text item) = [] ->
  trim (ar_text item) = [] ->
  (forall allTranslations,
      ~ In item (consolidate allTranslations)
      /\ map_has [] (fold_left addTranslation allTranslations []) = false)
  /\ (forall w data,
         result (generateLocalizationFromPdfImages w) = Returned data ->
         ~ In item data).
Proof.
  intros Hen Har.
  assert (K : hasKey item = false).
  { unfold hasKey, uniqueKey. now rewrite Hen, toLowerCase_nil, Har. }
  assert (D : forall all, ~ In item (consolidate all)).
  { intros all H. apply consolidate_incl in H. destruct H as [_ H]. congruence. }
  split.
  - intros all. split; [apply D|].
    destruct (map_has [] (fold_left addTranslation all [])) eqn:B;
      [|reflexivity].
    apply map_has_In in B.
    apply (addTranslation_keys all []) in B; [discriminate | intros k []].
  - intros w data H. apply ocr_result_consolidated in H.
    destruct H as [all ->]. apply D.
Qed.
End OcrResult.

Section RunResults.
Context {host : Host}.

Lemma check_returned (path : M (list TranslationPair))
    (data : list TranslationPair) :
  result (data' <- path ;;
          if (length data' =? 0)%nat then throwError noLocalizableText
          else ret data') = Returned data ->
  result path = Returned data /\ data <> [].
Proof.
  rewrite result_bind. destruct (result path) as [data'|e]; [|discriminate].
  destruct data' as [|item rest]; simpl; [discriminate|].
  intros H. injection H as <-. split; [reflexivity | discriminate].
Qed.

Lemma check_empty (path : M (list TranslationPair)) :
  result path = Returned [] ->
  result (data' <- path ;;
          if (length data' =? 0)%nat then throwError noLocalizableText
          else ret data') = Thrown (JsError (lit noLocalizableText)).
Proof. intros H. rewrite result_bind, H. reflexivity. Qed.

Lemma process_result (w : world) :
  result (processPdfForLocalization w)
  = match result (localizationData w) with
    | Returned data => Returned (generateFlutterFiles data)
    | Thrown e => Thrown e
    end.
Proof.
  unfold processPdfForLocalization. rewrite result_bind.
  now destruct (result (localizationData w)).
Qed.

(** C5. If the set of translation records produced by either path is
    empty, the run fails with the no-localizable-text error and returns no
    files. *)
Theorem empty_records_fail (w : world) (texts : list jsstring) :
  result (extractTextFromPdf w) = Returned texts ->
  ((5 < length texts)%nat ->
   result (generateKeysAndTranslations w texts) = Returned [] ->
   result (processPdfForLocalization w)
   = Thrown (JsError (lit noLocalizableText)))
  /\ ((length texts <= 5)%nat ->
      result (generateLocalizationFromPdfImages w) = Returned [] ->
      result (processPdfForLocalization w)
      = Thrown (JsError (lit noLocalizableText))).
Proof.
  intros H. split; intros L E; rewrite process_result.
  - rewrite (localizationData_direct w texts H L).
    rewrite 2 result_bind. simpl. now rewrite check_empty.
  - rewrite (localizationData_ocr w texts H L).
    rewrite 2 result_bind. simpl. now rewrite check_empty.
Qed.

End RunResults.

(** ** Failures of the translation service *)

Lemma promiseAll_cons_result {A} (m : M A) (rest : list (M A)) :
  result (promiseAll (m :: rest))
  = match result m, result (promiseAll rest) with
    | Thrown e, _ => Thrown e
    | Returned _, Thrown e => Thrown e
    | Returned a, Returned l => Returned (a :: l)
    end.
Proof. destruct m as [t o]. simpl. now destruct (promiseAll rest). Qed.

Lemma promiseAll_cases {A} (promises : list (M A)) (e : thrown) :
  (forall m, In m promises ->
             result m = Thrown e \/ exists a, result m = Returned a) ->
  result (promiseAll promises) = Thrown e
  \/ exists l, result (promiseAll promises) = Returned l.
Proof.
  induction promises as [|m rest IH]; intros H.
  - right. now exists [].
  - rewrite promiseAll_cons_result.
    destruct (H m (or_introl eq_refl)) as [-> | [a ->]]; [now left|].
    destruct (IH (fun m' Hm => H m' (or_intror Hm))) as [-> | [l ->]];
      [now left | right; now exists (a :: l)].
Qed.

Lemma promiseAll_thrown {A} (promises : list (M A)) (e : thrown) :
  (forall m, In m promises ->
             result m = Thrown e \/ exists a, result m = Returned a) ->
  (exists m, In m promises /\ result m = Thrown e) ->
  result (promiseAll promises) = Thrown e.
Proof.
  induction promises as [|m rest IH]; intros H [m' [Hin Hm']].
  - destruct Hin.
  - rewrite promiseAll_cons_result.
    destruct (H m (or_introl eq_refl)) as [-> | [a Ha]]; [reflexivity|].
    rewrite Ha. destruct Hin as [<- | Hin]; [congruence|].
    rewrite IH; [reflexivity | intros m'' Hm''; apply H; now right |].
    now exists m'.
Qed.

Lemma mapi_nth {A B} (f : A -> nat -> B) (l : list A) :
  forall start k x,
    nth_error l k = Some x -> In (f x (start + k)) (mapi f start l).
Proof.
  induction l as [|y rest IH]; intros start [|k] x; simpl; try discriminate.
  - intros [= ->]. left. now rewrite Nat.add_0_r.
  - intros H. right. rewrite <- Nat.add_succ_comm. now apply IH.
Qed.

Lemma slice_nth {A} (l : list A) (from to k : nat) :
  (k < to - from)%nat -> nth_error (slice from to l) k = nth_error l (from + k).
Proof.
  intros H. unfold slice. rewrite nth_error_firstn.
  apply Nat.ltb_lt in H. rewrite H. apply nth_error_skipn.
Qed.

Lemma processPage_result (w : world) (part : imagePart) (index : nat) :
  result (processPage w part index) = Thrown (JsError (lit apiCallFailed))
  \/ exists pairs, result (processPage w part index) = Returned pairs.
Proof.
  unfold processPage. rewrite result_bind. simpl.
  destruct (respondImage w index part) as [e|e|pairs];
    try destruct (isCriticalOcr e); simpl; eauto.
Qed.

Section CriticalPage.
Variable w : world.
Variable imageParts : list imagePart.
Variables (p : nat) (part : imagePart) (e : thrown).
Hypothesis page_p : nth_error imageParts p = Some part.
Hypothesis call_fails : respondImage w p part = CallFailed e.
Hypothesis critical : isCriticalOcr e = true.

Lemma processPage_critical :
  result (processPage w part p) = Thrown (JsError (lit apiCallFailed)).
Proof.
  unfold processPage. rewrite result_bind. simpl.
  now rewrite call_fails, critical.
Qed.

(** The loop stops at the batch of the failing page, if not before. *)
Lemma ocrBatches_critical (fuel : nat) :
  forall i all,
    (i <= p)%nat -> (length imageParts <= i + fuel)%nat ->
    result (ocrBatches w imageParts fuel i all)
    = Thrown (JsError (lit apiCallFailed)).
Proof.
  assert (Hp : (p < length imageParts)%nat).
  { apply nth_error_Some. rewrite page_p. discriminate. }
  induction fuel as [|fuel IH]; intros i all Hi Hf; [lia|].
  cbn [ocrBatches].
  replace (i <? length imageParts)%nat with true
    by (symmetry; apply Nat.ltb_lt; lia).
  rewrite result_bind. cbn [onProgress emit result snd].
  rewrite result_bind.
  set (promises := mapi _ i _).
  assert (R : forall m, In m promises ->
                result m = Thrown (JsError (lit apiCallFailed))
                \/ exists a, result m = Returned a).
  { intros m Hm. apply mapi_In in Hm. destruct Hm as [x [index ->]].
    apply processPage_result. }
  destruct (Nat.lt_ge_cases p (i + BATCH_SIZE)) as [Hin|Hout].
  - rewrite (promiseAll_thrown promises _ R); [reflexivity|].
    exists (processPage w part p). split; [|apply processPage_critical].
    pose proof (mapi_nth (fun part index => processPage w part index)
                  (slice i (i + BATCH_SIZE) imageParts) i (p - i) part) as Hm.
    rewrite slice_nth in Hm by lia.
    replace (i + (p - i))%nat with p in Hm by lia.
    exact (Hm page_p).
  - destruct (promiseAll_cases promises _ R) as [-> | [l ->]]; [reflexivity|].
    apply IH; unfold BATCH_SIZE in *; lia.
Qed.
End CriticalPage.

(** More rounds than the length of [imageParts] never change the loop. *)
Lemma ocrBatches_fuel (w : world) (imageParts : list imagePart) (fuel : nat) :
  forall i all,
    (length imageParts <= i + fuel)%nat ->
    ocrBatches w imageParts (S fuel) i all = ocrBatches w imageParts fuel i all.
Proof.
  induction fuel as [|fuel IH]; intros i all Hf.
  - cbn [ocrBatches].
    now replace (i <? length imageParts)%nat with false
      by (symmetry; apply Nat.ltb_ge; lia).
  - cbn [ocrBatches] in *.
    destruct (i <? length imageParts)%nat; [|reflexivity].
    apply bind_ext. intros _. apply bind_ext. intros batchResults.
    apply IH. unfold BATCH_SIZE. lia.
Qed.

Section ServiceFailures.
Context {host : Host}.

(** A failure of a call to the translation service that the path classes
    as critical is thrown again as the service's API error, and the run
    returns no files. The direct-text path classes the generic RPC failure
    and a 5xx status in brackets so; the OCR path these and the API-key
    wording, and a single such page is enough. *)
Theorem critical_failure_escalates (w : world) (texts : list jsstring)
    (message : jsstring) :
  result (extractTextFromPdf w) = Returned texts ->
  ((5 < length texts)%nat ->
   respondText w texts = CallFailed (JsError message) ->
   isCriticalText (JsError message) = true ->
   result (processPdfForLocalization w)
   = Thrown (JsError (lit apiCallFailed)))
  /\ ((length texts <= 5)%nat ->
      forall imageParts index part,
        result (convertPdfPagesToImageParts w) = Returned imageParts ->
        nth_error imageParts index = Some part ->
        respondImage w index part = CallFailed (JsError message) ->
        isCriticalOcr (JsError message) = true ->
        result (processPdfForLocalization w)
        = Thrown (JsError (lit apiCallFailed))).
Proof.
  intros H. split.
  - intros L F C.
    rewrite process_result, (localizationData_direct w texts H L).
    rewrite 3 result_bind. cbn [onProgress emit result snd].
    unfold generateKeysAndTranslations. rewrite result_bind.
    cbn [emit result snd]. now rewrite F, C.
  - intros L parts index part Hparts Hnth F C.
    rewrite process_result, (localizationData_ocr w texts H L).
    rewrite 3 result_bind. simpl.
    unfold generateLocalizationFromPdfImages. rewrite result_bind, Hparts.
    destruct parts as [|first rest]; [now destruct index|].
    cbn [length Nat.eqb]. rewrite result_bind.
    rewrite (ocrBatches_critical w (first :: rest) index part
               (JsError message) Hnth F C); [reflexivity | lia | simpl; lia].
Qed.
End ServiceFailures.

(** ** The order of strings and the sorted keys *)

Lemma str_ltb_irrefl (a : jsstring) : str_ltb a a = false.
Proof.
  induction a as [|x a IH]; simpl; [reflexivity|].
  now rewrite N.ltb_irrefl, N.eqb_refl, IH.
Qed.

Lemma str_ltb_cons (x y : codeunit) (a b : jsstring) :
  str_ltb (x :: a) (y :: b) = true
  <-> (x < y)%N \/ (x = y /\ str_ltb a b = true).
Proof.
  simpl. rewrite orb_true_iff, andb_true_iff, N.ltb_lt, N.eqb_eq. tauto.
Qed.

Lemma str_ltb_trans (a : jsstring) :
  forall b c, str_ltb a b = true -> str_ltb b c = true -> str_ltb a c = true.
Proof.
  induction a as [|x a IH]; intros [|y b] [|z c]; try (simpl; congruence).
  rewrite !str_ltb_cons. intros [H1|[-> H1]] [H2|[-> H2]].
  - left. lia.
  - now left.
  - now left.
  - right. split; [reflexivity|]. now apply IH with b.
Qed.

Lemma str_ltb_total (a : jsstring) :
  forall b, str_ltb a b = false -> str_ltb b a = false -> a = b.
Proof.
  induction a as [|x a IH]; intros [|y b]; simpl; try congruence.
  rewrite !orb_false_iff. intros [L1 E1] [L2 E2].
  apply N.ltb_ge in L1, L2. assert (x = y) by lia. subst y.
  rewrite N.eqb_refl in E1, E2. simpl in E1, E2.
  f_equal. now apply IH.
Qed.

Lemma str_leb_trans (a b c : jsstring) :
  str_leb a b = true -> str_leb b c = true -> str_leb a c = true.
Proof.
  unfold str_leb. rewrite !negb_true_iff. intros Hba Hcb.
  destruct (str_ltb c a) eqn:Hca; [|reflexivity].
  destruct (str_ltb a b) eqn:Hab.
  - now rewrite (str_ltb_trans c a b Hca Hab) in Hcb.
  - rewrite (str_ltb_total a b Hab Hba) in Hca. congruence.
Qed.

Lemma str_leb_lt (a b : jsstring) :
  str_leb a b = true -> a <> b -> str_lt a b.
Proof.
  unfold str_leb, str_lt. rewrite negb_true_iff. intros Hba Hne.
  destruct (str_ltb a b) eqn:Hab; [reflexivity|].
  now destruct Hne; apply str_ltb_total.
Qed.

Lemma set_add_In (x k : jsstring) (s : list jsstring) :
  In k (set_add x s) <-> k = x \/ In k s.
Proof.
  unfold set_add. destruct (existsb (str_eqb x) s) eqn:B.
  - apply existsb_str_eqb_In in B. split; [tauto|]. now intros [->|H].
  - rewrite in_app_iff. simpl. intuition congruence.
Qed.

Lemma set_add_NoDup (x : jsstring) (s : list jsstring) :
  NoDup s -> NoDup (set_add x s).
Proof.
  intros H. unfold set_add. destruct (existsb (str_eqb x) s) eqn:B;
    [assumption|].
  apply NoDup_rev in H. rewrite <- (rev_involutive (s ++ [x])).
  apply NoDup_rev. rewrite rev_app_distr. simpl. constructor; [|assumption].
  rewrite <- in_rev. intros Hin. apply existsb_str_eqb_In in Hin. congruence.
Qed.

Lemma allKeys_spec (data : list TranslationPair) :
  NoDup (allKeys data) /\ forall k, In k (allKeys data) <-> In k (map key data).
Proof.
  unfold allKeys.
  assert (G : forall keys,
             NoDup keys ->
             NoDup (fold_left (fun keys item => set_add (key item) keys)
                              data keys)
             /\ forall k,
                 In k (fold_left (fun keys item => set_add (key item) keys)
                                 data keys)
                 <-> In k keys \/ In k (map key data)).
  { induction data as [|item rest IH]; intros keys Hk; simpl.
    - split; [assumption | tauto].
    - destruct (IH (set_add (key item) keys)) as [N I];
        [now apply set_add_NoDup|].
      split; [assumption|]. intros k. rewrite I, set_add_In.
      intuition congruence. }
  destruct (G [] (NoDup_nil _)) as [N I]. split; [assumption|].
  intros k. rewrite I. simpl. tauto.
Qed.

Lemma strictly_sorted (l : list jsstring) :
  StronglySorted (fun a b => is_true (str_leb a b)) l -> NoDup l ->
  StronglySorted str_lt l.
Proof.
  induction 1 as [|x l S IH F]; intros N; constructor.
  - apply IH. now inversion N.
  - inversion N as [|? ? Hx _]; subst.
    rewrite Forall_forall in *. intros y Hy.
    apply str_leb_lt; [now apply F|]. intros ->. contradiction.
Qed.

Lemma sorted_unique (l : list jsstring) :
  forall l',
    StronglySorted str_lt l -> StronglySorted str_lt l' ->
    (forall k, In k l <-> In k l') -> l = l'.
Proof.
  assert (Irr : forall a, ~ str_lt a a).
  { intros a H. unfold str_lt in H. now rewrite str_ltb_irrefl in H. }
  assert (Head : forall x l y l',
             StronglySorted str_lt (x :: l) -> StronglySorted str_lt (y :: l') ->
             (forall k, In k (x :: l) <-> In k (y :: l')) -> x = y).
  { intros x m y m' S S' E. inversion S as [|? ? _ F]; subst.
    inversion S' as [|? ? _ F']; subst. rewrite Forall_forall in F, F'.
    destruct (proj1 (E x) (or_introl eq_refl)) as [->|Hx]; [reflexivity|].
    destruct (proj2 (E y) (or_introl eq_refl)) as [->|Hy]; [reflexivity|].
    destruct (Irr x). apply (str_ltb_trans x y x); [now apply F | now apply F']. }
  induction l as [|x l IH]; intros [|y l'] S S' E.
  - reflexivity.
  - destruct (proj2 (E y) (or_introl eq_refl)).
  - destruct (proj1 (E x) (or_introl eq_refl)).
  - assert (x = y) by (eapply Head; eassumption). subst y. f_equal.
    inversion S as [|? ? S1 F]; subst. inversion S' as [|? ? S1' F']; subst.
    rewrite Forall_forall in F, F'.
    apply IH; [assumption..|]. intros k. split; intros Hk.
    + destruct (proj1 (E k) (or_intror Hk)) as [->|H]; [|assumption].
      destruct (Irr k). now apply F.
    + destruct (proj2 (E k) (or_intror Hk)) as [->|H]; [|assumption].
      destruct (Irr k). now apply F'.
Qed.

Lemma sortedKeys_spec (data : list TranslationPair) :
  StronglySorted str_lt (sortedKeys data)
  /\ forall k, In k (sortedKeys data) <-> In k (map key data).
Proof.
  destruct (allKeys_spec data) as [N I]. unfold sortedKeys.
  pose proof (KeySort.Permuted_sort (allKeys data)) as P.
  split.
  - apply strictly_sorted.
    + apply KeySort.StronglySorted_sort.
      intros a b c. apply str_leb_trans.
    + now apply (Permutation_NoDup P).
  - intros k. rewrite <- I. split; intros H.
    + now apply (Permutation_in _ (Permutation_sym P)).
    + now apply (Permutation_in _ P).
Qed.

(** C7. The generated [locale_keys.g.dart] lists the keys of the records,
    each once, in strictly ascending order of their code units, whatever the
    order of the records: two record lists with the same keys give the same
    listing. *)
Theorem locale_keys_sorted (data : list TranslationPair) :
  nth_error (generateFlutterFiles data) 2
  = Some {| filename := lit "locale_keys.g.dart";
            content := localeKeysHeader
                       ++ join newline (map constantLine (sortedKeys data))
                       ++ localeKeysFooter |}
  /\ StronglySorted str_lt (sortedKeys data)
  /\ (forall k, In k (sortedKeys data) <-> In k (map key data))
  /\ (forall data',
         (forall k, In k (map key data') <-> In k (map key data)) ->
         sortedKeys data' = sortedKeys data).
Proof.
  destruct (sortedKeys_spec data) as [S I].
  split; [reflexivity|]. split; [assumption|]. split; [assumption|].
  intros data' E. destruct (sortedKeys_spec data') as [S' I'].
  apply sorted_unique; [assumption..|].
  intros k. now rewrite I, I', E.
Qed.

(** ** Progress reports *)

Lemma roundDiv_bounds (a b lo hi : Z) :
  (0 < b)%Z -> (lo * b <= a <= hi * b)%Z -> (lo <= roundDiv a b <= hi)%Z.
Proof.
  intros Hb [Hlo Hhi]. unfold roundDiv. split.
  - apply Z.div_le_lower_bound; nia.
  - apply Z.lt_succ_r. apply Z.div_lt_upper_bound; nia.
Qed.

Lemma renderPages_within (numPages : nat) (pages : list pdfPage) :
  forall i parts,
    (1 <= i)%nat -> (i + length pages = numPages + 1)%nat ->
    forallb (progressWithin 0 30)
            (trace (renderPages numPages i pages parts)) = true.
Proof.
  induction pages as [|page rest IH]; intros i parts Hi Hn;
    cbn [renderPages]; [reflexivity|].
  simpl length in Hn. rewrite trace_bind.
  cbn [onProgress emit trace result fst snd app forallb progressWithin].
  apply andb_true_intro. split.
  - unfold progressPercentage.
    destruct (roundDiv_bounds (Z.of_nat i * 30) (Z.of_nat numPages) 0 30)
      as [L U]; [lia | nia |].
    apply andb_true_intro. split; now apply Z.leb_le.
  - rewrite trace_bind.
    destruct (renderOutcome page) as [[]|e]; simpl; [|reflexivity].
    apply IH; lia.
Qed.

Lemma convert_within (w : world) :
  forallb (progressWithin 0 30) (trace (convertPdfPagesToImageParts w)) = true.
Proof.
  unfold convertPdfPagesToImageParts.
  destruct (pdfjsLib w); simpl; [|reflexivity].
  destruct (getDocument w) as [pdf|e]; simpl; [|reflexivity].
  destruct (getContext w); simpl; [|reflexivity].
  pose proof (renderPages_within (length pdf) pdf 1 [] (le_n 1)) as H.
  destruct (renderPages (length pdf) 1 pdf []) as [t [parts|e]]; simpl in *.
  - rewrite forallb_app. simpl. rewrite andb_true_r. apply H. lia.
  - apply H. lia.
Qed.

Lemma ocrBatches_within (w : world) (imageParts : list imagePart)
    (fuel : nat) :
  forall i all,
    forallb (progressWithin 30 90)
            (trace (ocrBatches w imageParts fuel i all)) = true.
Proof.
  induction fuel as [|fuel IH]; intros i all; cbn [ocrBatches];
    [reflexivity|].
  destruct (i <? length imageParts)%nat eqn:L; [|reflexivity].
  apply Nat.ltb_lt in L. rewrite trace_bind.
  cbn [onProgress emit trace result fst snd app forallb progressWithin].
  apply andb_true_intro. split.
  - unfold batchProgress, ocrStartProgress, ocrProgressRange, ocrEndProgress.
    destruct (roundDiv_bounds
                (30 * Z.of_nat (length imageParts) + Z.of_nat i * (90 - 30))
                (Z.of_nat (length imageParts)) 30 90) as [Lo Hi];
      [lia | nia |].
    apply andb_true_intro. split; now apply Z.leb_le.
  - rewrite trace_bind, forallb_app. apply andb_true_intro. split.
    + apply promiseAll_trace. intros m Hm.
      apply mapi_In in Hm. destruct Hm as [part [index ->]].
      now rewrite processPage_trace.
    + destruct (result (promiseAll _)); [apply IH | reflexivity].
Qed.

Lemma progressWithin_weaken (lo hi lo' hi' : Z) (t : list effect) :
  (lo' <= lo)%Z -> (hi <= hi')%Z ->
  forallb (progressWithin lo hi) t = true ->
  forallb (progressWithin lo' hi') t = true.
Proof.
  intros Hlo Hhi. apply forallb_weaken. intros [m p| | | |]; simpl; try easy.
  rewrite !andb_true_iff, !Z.leb_le. lia.
Qed.

Section ProgressReports.
Context {host : Host}.

Lemma ocr_within (w : world) :
  forallb (progressWithin 0 90)
          (trace (generateLocalizationFromPdfImages w)) = true.
Proof.
  unfold generateLocalizationFromPdfImages.
  rewrite trace_bind, forallb_app. apply andb_true_intro. split.
  - apply (progressWithin_weaken 0 30); [lia | lia | apply convert_within].
  - destruct (result (convertPdfPagesToImageParts w)) as [parts|e];
      [|reflexivity].
    destruct (length parts =? 0)%nat; [reflexivity|].
    rewrite trace_bind, forallb_app. apply andb_true_intro. split.
    + apply (progressWithin_weaken 30 90); [lia | lia | apply ocrBatches_within].
    + now destruct (result (ocrBatches w parts (length parts) 0 [])).
Qed.

(** Every percentage the service reports lies between 0 and 100. *)
Theorem percentages_within_bounds (w : world) :
  forallb (progressWithin 0 100) (trace (processPdfForLocalization w)) = true.
Proof.
  rewrite process_trace, forallb_app. apply andb_true_intro. split.
  - unfold localizationData. rewrite trace_bind.
    cbn [onProgress emit trace result fst snd app forallb progressWithin].
    apply andb_true_intro. split; [reflexivity|].
    rewrite trace_bind, extract_trace. cbn [app].
    destruct (result (extractTextFromPdf w)) as [texts|e]; [|reflexivity].
    rewrite trace_bind, forallb_app. apply andb_true_intro. split.
    + destruct (5 <? length texts)%nat.
      * rewrite trace_bind, generateKeys_trace. reflexivity.
      * rewrite trace_bind. cbn [onProgress emit trace result fst snd app].
        cbn [forallb progressWithin]. apply andb_true_intro.
        split; [reflexivity|].
        apply (progressWithin_weaken 0 90); [lia | lia | apply ocr_within].
    + match goal with
      | |- context [result ?m] => destruct (result m) as [data|e]
      end; [|reflexivity].
      now destruct (length data =? 0)%nat.
  - now destruct (result (localizationData w)).
Qed.
End ProgressReports.

(** ** The order of the progress reports *)

Lemma percentages_app (t t' : list effect) :
  percentages (t ++ t') = percentages t ++ percentages t'.
Proof.
  induction t as [|e t IH]; simpl; [reflexivity|].
  destruct e; simpl; now rewrite IH.
Qed.

Lemma percentages_none (t : list effect) :
  forallb (fun e => negb (isProgress e)) t = true -> percentages t = [].
Proof.
  induction t as [|e t IH]; simpl; [reflexivity|].
  destruct e; simpl; try discriminate; exact IH.
Qed.

Lemma ascendingWithin_nil (lo hi : Z) : ascendingWithin lo hi [].
Proof. split; constructor. Qed.

Lemma ascendingWithin_cons (p lo hi : Z) (ps : list Z) :
  (lo <= p)%Z -> ascendingWithin p hi ps -> (p <= hi)%Z ->
  ascendingWithin lo hi (p :: ps).
Proof.
  intros Hlo [S F] Hhi. split.
  - constructor; [assumption|]. revert F. apply Forall_impl. lia.
  - constructor; [lia|]. revert F. apply Forall_impl. lia.
Qed.

Lemma ascendingWithin_app (lo mid hi : Z) (ps qs : list Z) :
  (lo <= mid <= hi)%Z ->
  ascendingWithin lo mid ps -> ascendingWithin mid hi qs ->
  ascendingWithin lo hi (ps ++ qs).
Proof.
  intros Hm [S F] [S' F']. split.
  - induction S as [|p ps S IH Hp]; simpl; [assumption|].
    inversion F as [|? ? Fp Fps]; subst.
    constructor; [now apply IH|].
    apply Forall_app. split; [assumption|].
    revert F'. apply Forall_impl. lia.
  - apply Forall_app. split.
    + revert F. apply Forall_impl. lia.
    + revert F'. apply Forall_impl. lia.
Qed.

Lemma ascendingWithin_weaken (lo hi lo' hi' : Z) (ps : list Z) :
  (lo' <= lo)%Z -> (hi <= hi')%Z ->
  ascendingWithin lo hi ps -> ascendingWithin lo' hi' ps.
Proof.
  intros Hlo Hhi [S F]. split; [assumption|].
  revert F. apply Forall_impl. lia.
Qed.

Lemma roundDiv_mono (a a' b : Z) :
  (0 < b)%Z -> (a <= a')%Z -> (roundDiv a b <= roundDiv a' b)%Z.
Proof. intros Hb Ha. unfold roundDiv. apply Z.div_le_mono; lia. Qed.

Lemma renderPages_ascending (numPages : nat) (pages : list pdfPage) :
  forall i parts,
    (1 <= i)%nat -> (i + length pages = numPages + 1)%nat ->
    ascendingWithin (progressPercentage i numPages) 30
      (percentages (trace (renderPages numPages i pages parts))).
Proof.
  induction pages as [|page rest IH]; intros i parts Hi Hn;
    cbn [renderPages]; [apply ascendingWithin_nil|].
  simpl length in Hn. rewrite trace_bind.
  cbn [onProgress emit trace result fst snd app percentages].
  assert (B : (0 <= progressPercentage i numPages <= 30)%Z).
  { unfold progressPercentage. apply roundDiv_bounds; [lia | nia]. }
  apply ascendingWithin_cons; [lia | | lia].
  rewrite trace_bind.
  destruct (renderOutcome page) as [[]|e]; simpl;
    [|apply ascendingWithin_nil].
  apply (ascendingWithin_weaken (progressPercentage (S i) numPages) 30);
    [| lia | apply IH; lia].
  unfold progressPercentage. apply roundDiv_mono; lia.
Qed.

Lemma promiseAll_percentages (w : world) (start : nat)
    (batch : list imagePart) :
  percentages
    (trace (promiseAll (mapi (fun part index => processPage w part index)
                             start batch))) = [].
Proof.
  apply percentages_none. apply promiseAll_trace. intros m Hm.
  apply mapi_In in Hm. destruct Hm as [part [index ->]].
  now rewrite processPage_trace.
Qed.

Lemma ocrBatches_ascending (w : world) (imageParts : list imagePart)
    (fuel : nat) :
  forall i all,
    ascendingWithin 30 90
      (percentages (trace (ocrBatches w imageParts fuel i all)))
    /\ Forall (fun p => (batchProgress i (length imageParts) <= p)%Z)
         (percentages (trace (ocrBatches w imageParts fuel i all))).
Proof.
  induction fuel as [|fuel IH]; intros i all; cbn [ocrBatches];
    [split; [apply ascendingWithin_nil | constructor]|].
  destruct (i <? length imageParts)%nat eqn:L;
    [|split; [apply ascendingWithin_nil | constructor]].
  apply Nat.ltb_lt in L. rewrite trace_bind.
  cbn [onProgress emit trace result fst snd app percentages].
  rewrite trace_bind, percentages_app, promiseAll_percentages. cbn [app].
  assert (B : (30 <= batchProgress i (length imageParts) <= 90)%Z).
  { unfold batchProgress, ocrProgressRange, ocrStartProgress, ocrEndProgress.
    apply roundDiv_bounds; [lia | nia]. }
  assert (Mono : (batchProgress i (length imageParts)
                  <= batchProgress (i + BATCH_SIZE) (length imageParts))%Z).
  { unfold batchProgress, ocrProgressRange, ocrStartProgress, ocrEndProgress,
      BATCH_SIZE.
    apply roundDiv_mono; lia. }
  destruct (result (promiseAll _)) as [batchResults|e].
  - destruct (IH (i + BATCH_SIZE)%nat (all ++ concat batchResults))
      as [[S F] G].
    split.
    + split.
      * constructor; [assumption|]. revert G. apply Forall_impl. lia.
      * constructor; [lia | assumption].
    + constructor; [lia|]. revert G. apply Forall_impl. lia.
  - split; [|constructor; [lia | constructor]].
    split; [repeat constructor | constructor; [lia | constructor]].
Qed.

Section ReportOrder.
Context {host : Host}.

Lemma ocr_ascending (w : world) :
  ascendingWithin 0 90
    (percentages (trace (generateLocalizationFromPdfImages w))).
Proof.
  unfold generateLocalizationFromPdfImages.
  rewrite trace_bind, percentages_app.
  apply (ascendingWithin_app 0 30 90); [lia | |].
  - unfold convertPdfPagesToImageParts.
    destruct (pdfjsLib w); simpl; [|apply ascendingWithin_nil].
    destruct (getDocument w) as [pdf|e]; simpl; [|apply ascendingWithin_nil].
    destruct (getContext w); simpl; [|apply ascendingWithin_nil].
    pose proof (renderPages_ascending (length pdf) pdf 1 [] (le_n 1)) as H.
    assert (B : (0 <= progressPercentage 1 (length pdf))%Z).
    { unfold progressPercentage, roundDiv. apply Z_div_nonneg_nonneg; lia. }
    destruct (renderPages (length pdf) 1 pdf []) as [t [parts|e]];
      simpl in *.
    + rewrite percentages_app. simpl. rewrite app_nil_r.
      apply (ascendingWithin_weaken (progressPercentage 1 (length pdf)) 30);
        [lia | lia | apply H; lia].
    + apply (ascendingWithin_weaken (progressPercentage 1 (length pdf)) 30);
        [lia | lia | apply H; lia].
  - destruct (result (convertPdfPagesToImageParts w)) as [parts|e];
      [|apply ascendingWithin_nil].
    destruct (length parts =? 0)%nat; [apply ascendingWithin_nil|].
    rewrite trace_bind, percentages_app.
    apply (ascendingWithin_app 30 90 90); [lia | apply ocrBatches_ascending |].
    destruct (result (ocrBatches w parts (length parts) 0 [])); simpl;
      [|apply ascendingWithin_nil].
    apply ascendingWithin_cons; [lia | apply ascendingWithin_nil | lia].
Qed.

(** On the direct-text path the reported percentages never go down, and on
    the OCR path they never go down after the 10% report that opens it. *)
Theorem progress_order (w : world) (texts : list jsstring) :
  result (extractTextFromPdf w) = Returned texts ->
  ((5 < length texts)%nat ->
   nonDecreasing (percentages (trace (processPdfForLocalization w))))
  /\ ((length texts <= 5)%nat ->
      exists rest,
        percentages (trace (processPdfForLocalization w)) = 5%Z :: 10%Z :: rest
        /\ nonDecreasing rest).
Proof.
  intros H. split; intros L.
  - rewrite process_trace, (localizationData_direct w texts H L).
    rewrite !trace_bind, !result_bind, generateKeys_trace. simpl.
    destruct (result (generateKeysAndTranslations w texts)) as [data|e];
      simpl; [|repeat constructor; lia].
    destruct (length data =? 0)%nat; simpl; repeat constructor; lia.
  - rewrite process_trace, (localizationData_ocr w texts H L).
    rewrite !trace_bind, !result_bind. simpl.
    eexists. split; [reflexivity|].
    rewrite !percentages_app. apply StronglySorted_Sorted.
    apply (ascendingWithin_app 0 90 95); [lia | |].
    + apply (ascendingWithin_app 0 90 90);
        [lia | apply ocr_ascending | ].
      destruct (result (generateLocalizationFromPdfImages w)) as [data|e];
        simpl; [|apply ascendingWithin_nil].
      destruct (length data =? 0)%nat; apply ascendingWithin_nil.
    + destruct (result (generateLocalizationFromPdfImages w)) as [data|e];
        simpl; [|apply ascendingWithin_nil].
      destruct (length data =? 0)%nat; simpl; [apply ascendingWithin_nil|].
      apply ascendingWithin_cons; [lia | apply ascendingWithin_nil | lia].
Qed.
Lemma convert_first_report (w : world) (page : pdfPage)
    (rest : list pdfPage) :
  pdfjsLib w = true -> getDocument w = Returned (page :: rest) ->
  getContext w = true ->
  exists later,
    percentages (trace (convertPdfPagesToImageParts w))
    = progressPercentage 1 (length (page :: rest)) :: later.
Proof.
  intros Hlib Hdoc Hctx. unfold convertPdfPagesToImageParts.
  rewrite Hlib, Hdoc. cbn [negb]. rewrite trace_bind.
  cbn [await trace result fst snd app]. rewrite trace_bind.
  cbn [emit trace result fst snd app percentages].
  rewrite Hctx. cbn [negb]. rewrite trace_bind. cbn [renderPages].
  rewrite trace_bind. cbn [onProgress emit trace result fst snd app].
  cbn [percentages]. eexists. reflexivity.
Qed.

(** The 10% report that opens the OCR path is followed by a lower one as
    soon as the document has four pages. *)
Theorem progress_regresses_from_four_pages (w : world)
    (texts : list jsstring) (pdf : list pdfPage) :
  result (extractTextFromPdf w) = Returned texts ->
  (length texts <= 5)%nat ->
  getDocument w = Returned pdf ->
  getContext w = true ->
  (4 <= length pdf)%nat ->
  ~ nonDecreasing (percentages (trace (processPdfForLocalization w))).
Proof.
  intros H L Hdoc Hctx Hlen.
  destruct (extract_returned w texts H) as [_ [Hlib _]].
  destruct (ocr_path_trace w texts H L) as [tail [-> _]].
  destruct pdf as [|page rest]; [simpl in Hlen; lia|].
  destruct (convert_first_report w page rest Hlib Hdoc Hctx) as [later E].
  cbn [percentages]. rewrite percentages_app.
  unfold generateLocalizationFromPdfImages.
  rewrite trace_bind, percentages_app, E.
  assert (B : (progressPercentage 1 (length (page :: rest)) < 10)%Z).
  { unfold progressPercentage, roundDiv.
    apply Z.div_lt_upper_bound; lia. }
  revert B. generalize (progressPercentage 1 (length (page :: rest))).
  intros first B. cbn [app]. unfold nonDecreasing. intros S.
  inversion S as [|? ? S1 _]. inversion S1 as [|? ? _ Hd].
  inversion Hd as [|? ? Hle]. lia.
Qed.
End ReportOrder.

(** ** The canvas *)

Lemma renderPages_canvas (numPages : nat) (pages : list pdfPage) :
  forall i parts,
    filter isCanvas (trace (renderPages numPages i pages parts)) = [].
Proof.
  intros i parts. apply (filter_none isCanvas isProgress).
  - now intros [].
  - apply renderPages_trace.
Qed.

(** When the rasterization returns, the canvas it created has been
    removed. *)
Theorem canvas_released_on_return (w : world) (imageParts : list imagePart) :
  result (convertPdfPagesToImageParts w) = Returned imageParts ->
  filter isCanvas (trace (convertPdfPagesToImageParts w))
  = [CanvasCreated; CanvasRemoved].
Proof.
  unfold convertPdfPagesToImageParts.
  destruct (pdfjsLib w); simpl; [|discriminate].
  destruct (getDocument w) as [pdf|e]; simpl; [|discriminate].
  destruct (getContext w); simpl; [|discriminate].
  pose proof (renderPages_canvas (length pdf) pdf 1 []) as H.
  destruct (renderPages (length pdf) 1 pdf []) as [t [parts|e]]; simpl in *;
    [|discriminate].
  intros _. rewrite filter_app, H. reflexivity.
Qed.

(** When the rasterization throws after it created the canvas, the canvas
    is never removed. *)
Theorem canvas_kept_on_throw (w : world) (e : thrown) :
  result (convertPdfPagesToImageParts w) = Thrown e ->
  ~ In CanvasRemoved (trace (convertPdfPagesToImageParts w)).
Proof.
  unfold convertPdfPagesToImageParts.
  destruct (pdfjsLib w); simpl; [|tauto].
  destruct (getDocument w) as [pdf|e']; simpl; [|tauto].
  destruct (getContext w); simpl; [|intuition discriminate].
  pose proof (renderPages_trace (length pdf) pdf 1 []) as H.
  destruct (renderPages (length pdf) 1 pdf []) as [t [parts|e']]; simpl in *;
    [discriminate|].
  intros _ [D|Hin]; [discriminate|].
  rewrite forallb_forall in H. now apply H in Hin.
Qed.


(** * The claims on the sample documents *)

Lemma asciiHost_toLowerCase_empty (s : jsstring) :
  @toLowerCase asciiHost s = [] <-> s = [].
Proof. destruct s; simpl; split; congruence. Qed.

(** The texts extracted from [textPdf] and from [scannedPdf]. *)
Example extract_textPdf :
  result (extractTextFromPdf textPdf)
  = Returned (map lit ["Sign in"; "Email"; "Password"; "Submit"; "Cancel";
                       "Forgot password?"]%string).
Proof. vm_compute. reflexivity. Qed.

Example extract_scannedPdf :
  result (extractTextFromPdf scannedPdf)
  = Returned (map lit ["Hello"; "Submit"]%string).
Proof. vm_compute. reflexivity. Qed.

(** The consolidation of the records of two pages of [scannedPdf]. *)
Example consolidate_two_pages :
  @consolidate asciiHost
    [pair "submit" "Submit" "send"; pair "hello" " hello " "hi";
     pair "send" "SUBMIT" "send"; pair "blank" " " "  ";
     pair "submit" "Submit" "send"; pair "hello" " hello " "hi";
     pair "send" "SUBMIT" "send"; pair "blank" " " "  "]
  = [pair "submit" "Submit" "send"; pair "hello" " hello " "hi"].
Proof. vm_compute. reflexivity. Qed.

Example extract_fiveTextsPdf :
  result (extractTextFromPdf fiveTextsPdf)
  = Returned (map lit ["Sign in"; "Email"; "Password"; "Submit";
                       "Cancel"]%string).
Proof. vm_compute. reflexivity. Qed.

(** C1 at [textPdf] (six strings), at [fiveTextsPdf] (five) and at
    [scannedPdf] (two). *)
Lemma branch_on_text_count_witness :
  tookDirectPath
    (map lit ["Sign in"; "Email"; "Password"; "Submit"; "Cancel";
              "Forgot password?"]%string)
    (trace (@processPdfForLocalization asciiHost textPdf))
  /\ tookOcrPath (trace (@processPdfForLocalization asciiHost fiveTextsPdf))
  /\ tookOcrPath (trace (@processPdfForLocalization asciiHost scannedPdf)).
Proof.
  split; [|split].
  - refine (proj1 (@branch_on_text_count asciiHost textPdf _
                     extract_textPdf) _).
    vm_compute. lia.
  - refine (proj2 (@branch_on_text_count asciiHost fiveTextsPdf _
                     extract_fiveTextsPdf) _).
    vm_compute. lia.
  - refine (proj2 (@branch_on_text_count asciiHost scannedPdf _
                     extract_scannedPdf) _).
    vm_compute. lia.
Defined.

(** C2 as stated fails: a record whose texts are blank has the empty
    identity and is the first record seen for it, yet the consolidation
    returns nothing. *)
Lemma consolidate_drops_empty_identity :
  @consolidate asciiHost [pair "blank" " " "  "] = []
  /\ firstPerIdentity (@identity asciiHost) [pair "blank" " " "  "]
     = [pair "blank" " " "  "]
  /\ @consolidate asciiHost [pair "blank" " " "  "]
     <> firstPerIdentity (@identity asciiHost) [pair "blank" " " "  "].
Proof.
  split; [vm_compute; reflexivity|]. split; [vm_compute; reflexivity|].
  vm_compute. discriminate.
Qed.

(** C2, amended, at the records of two pages of [scannedPdf]. *)
Lemma consolidate_first_per_identity_witness :
  (forall item, @uniqueKey asciiHost item = @identity asciiHost item)
  /\ @consolidate asciiHost
       [pair "submit" "Submit" "send"; pair "hello" " hello " "hi";
        pair "send" "SUBMIT" "send"; pair "blank" " " "  ";
        pair "submit" "Submit" "send"; pair "hello" " hello " "hi"]
     = firstPerIdentity (@identity asciiHost)
         (filter (fun item => truthy (@identity asciiHost item))
            [pair "submit" "Submit" "send"; pair "hello" " hello " "hi";
             pair "send" "SUBMIT" "send"; pair "blank" " " "  ";
             pair "submit" "Submit" "send"; pair "hello" " hello " "hi"]).
Proof.
  split.
  - exact (proj1 (@consolidate_first_per_identity asciiHost
                    asciiHost_toLowerCase_empty [])).
  - exact (proj1 (proj2 (@consolidate_first_per_identity asciiHost
                           asciiHost_toLowerCase_empty _))).
Defined.

(** C10 at the blank record of [scannedPdf]. *)
Lemma blank_record_dropped_witness :
  (forall allTranslations,
      ~ In (pair "blank" " " "  ") (@consolidate asciiHost allTranslations)
      /\ map_has [] (fold_left (@addTranslation asciiHost) allTranslations [])
         = false)
  /\ (forall w data,
         result (@generateLocalizationFromPdfImages asciiHost w)
         = Returned data ->
         ~ In (pair "blank" " " "  ") data).
Proof.
  refine (@blank_record_dropped asciiHost eq_refl (pair "blank" " " "  ")
            _ _); vm_compute; reflexivity.
Defined.

(** The records [textPdf] hands to file materialization. *)
Example localizationData_textPdf :
  result (@localizationData asciiHost textPdf)
  = Returned [pair "submit_button" "Submit" "send";
              pair "send" "submit " "send"].
Proof. vm_compute. reflexivity. Qed.

(** The records [scannedPdf] hands to file materialization. *)
Example localizationData_scannedPdf :
  result (@localizationData asciiHost scannedPdf)
  = Returned [pair "submit" "Submit" "send"; pair "hello" " hello " "hi"].
Proof. vm_compute. reflexivity. Qed.

(** C3 as stated fails. On the direct-text path the run on [textPdf]
    succeeds, and the records handed to file materialization share an
    identity and are not in the order of their keys. On the OCR path the
    records of the run on [scannedPdf] are not in the order of their keys
    either. *)
Lemma direct_path_records_not_consolidated :
  result (@localizationData asciiHost textPdf)
  = Returned [pair "submit_button" "Submit" "send";
              pair "send" "submit " "send"]
  /\ result (@processPdfForLocalization asciiHost textPdf)
     = Returned (generateFlutterFiles [pair "submit_button" "Submit" "send";
                                       pair "send" "submit " "send"])
  /\ ~ NoDup (map (@identity asciiHost)
                  [pair "submit_button" "Submit" "send";
                   pair "send" "submit " "send"])
  /\ ~ orderedByKey [pair "submit_button" "Submit" "send";
                     pair "send" "submit " "send"]
  /\ result (@localizationData asciiHost scannedPdf)
     = Returned [pair "submit" "Submit" "send"; pair "hello" " hello " "hi"]
  /\ ~ orderedByKey [pair "submit" "Submit" "send";
                     pair "hello" " hello " "hi"].
Proof.
  split; [exact localizationData_textPdf|].
  split; [rewrite process_result, localizationData_textPdf; reflexivity|].
  split; [|split; [|split; [exact localizationData_scannedPdf|]]].
  - intros N. vm_compute in N. inversion N as [|? ? Hnotin _].
    apply Hnotin. now left.
  - intros S. unfold orderedByKey in S. inversion S as [|? ? _ Hd].
    inversion Hd as [|? ? Hle]. vm_compute in Hle. discriminate.
  - intros S. unfold orderedByKey in S. inversion S as [|? ? _ Hd].
    inversion Hd as [|? ? Hle]. vm_compute in Hle. discriminate.
Qed.

Example extract_textPdfBadKey :
  result (extractTextFromPdf textPdfBadKey)
  = Returned (map lit ["Sign in"; "Email"; "Password"; "Submit"; "Cancel";
                       "Forgot password?"]%string).
Proof. vm_compute. reflexivity. Qed.

Example extract_scannedPdf503 :
  result (extractTextFromPdf scannedPdf503)
  = Returned (map lit ["Hello"; "Submit"]%string).
Proof. vm_compute. reflexivity. Qed.

Example extract_textPdf503 :
  result (extractTextFromPdf textPdf503)
  = Returned (map lit ["Sign in"; "Email"; "Password"; "Submit"; "Cancel";
                       "Forgot password?"]%string).
Proof. vm_compute. reflexivity. Qed.

(** The escalation at [textPdf503] (the direct-text request gets a 503) and
    at [scannedPdf503] (the third of four pages gets a 503). *)
Lemma critical_failure_escalates_witness :
  result (@processPdfForLocalization asciiHost textPdf503)
  = Thrown (JsError (lit apiCallFailed))
  /\ result (@processPdfForLocalization asciiHost scannedPdf503)
     = Thrown (JsError (lit apiCallFailed)).
Proof.
  split.
  - refine (proj1 (@critical_failure_escalates asciiHost textPdf503 _
                     (lit "got status: [503] Service Unavailable")
                     extract_textPdf503) _ _ _).
    + vm_compute. lia.
    + reflexivity.
    + vm_compute. reflexivity.
  - refine (proj2 (@critical_failure_escalates asciiHost scannedPdf503 _
                     (lit "got status: [503] Service Unavailable")
                     extract_scannedPdf503) _
                  [ {| data := lit "QUFB"; mimeType := lit "image/jpeg" |};
                    {| data := lit "QkJC"; mimeType := lit "image/jpeg" |};
                    {| data := lit "Q0ND"; mimeType := lit "image/jpeg" |};
                    {| data := lit "RERE"; mimeType := lit "image/jpeg" |} ]
                  2%nat
                  {| data := lit "Q0ND"; mimeType := lit "image/jpeg" |}
                  _ _ _ _).
    + vm_compute. lia.
    + vm_compute. reflexivity.
    + reflexivity.
    + reflexivity.
    + vm_compute. reflexivity.
Defined.

(** C4 fails on the direct-text path. The message of a refused API key is
    one the claim names, and the OCR path does class it as critical; the
    direct-text path does not test for it. There the failure is not
    escalated: the run on [textPdfBadKey] ends in the error kept for
    unknown failures, while the same failure on the pages of
    [scannedPdfBadKey] ends in the service's API error. *)
Theorem api_key_failure_not_escalated_on_direct_path :
  respondText textPdfBadKey
    (map lit ["Sign in"; "Email"; "Password"; "Submit"; "Cancel";
              "Forgot password?"]%string)
  = CallFailed
      (JsError (lit "API key not valid. Please pass a valid API key."))
  /\ isCriticalOcr
       (JsError (lit "API key not valid. Please pass a valid API key."))
     = true
  /\ isCriticalText
       (JsError (lit "API key not valid. Please pass a valid API key."))
     = false
  /\ result (@processPdfForLocalization asciiHost textPdfBadKey)
     = Thrown (JsError (lit unknownError))
  /\ result (@processPdfForLocalization asciiHost scannedPdfBadKey)
     = Thrown (JsError (lit apiCallFailed)).
Proof. repeat split; vm_compute; reflexivity. Qed.

Example extract_textPdfNoRecords :
  result (extractTextFromPdf textPdfNoRecords)
  = Returned (map lit ["Sign in"; "Email"; "Password"; "Submit"; "Cancel";
                       "Forgot password?"]%string).
Proof. vm_compute. reflexivity. Qed.

Example extract_scannedPdfNoRecords :
  result (extractTextFromPdf scannedPdfNoRecords)
  = Returned (map lit ["Hello"; "Submit"]%string).
Proof. vm_compute. reflexivity. Qed.

(** C5 at [textPdfNoRecords] and at [scannedPdfNoRecords]. *)
Lemma empty_records_fail_witness :
  result (@processPdfForLocalization asciiHost textPdfNoRecords)
  = Thrown (JsError (lit noLocalizableText))
  /\ result (@processPdfForLocalization asciiHost scannedPdfNoRecords)
     = Thrown (JsError (lit noLocalizableText)).
Proof.
  split.
  - refine (proj1 (@empty_records_fail asciiHost textPdfNoRecords _
                     extract_textPdfNoRecords) _ _).
    + vm_compute. lia.
    + vm_compute. reflexivity.
  - refine (proj2 (@empty_records_fail asciiHost scannedPdfNoRecords _
                     extract_scannedPdfNoRecords) _ _).
    + vm_compute. lia.
    + vm_compute. reflexivity.
Defined.

(** C6 fails on the OCR path. On [scannedPdf] (four pages, two extracted
    strings) the run reports 10% when it starts the OCR process and then 8%
    for the first page: the percentages stay between 0 and 100 but go
    down. *)
Theorem progress_regresses_on_ocr_path :
  percentages (trace (@processPdfForLocalization asciiHost scannedPdf))
  = [5; 10; 8; 15; 23; 30; 30; 90; 95]%Z
  /\ ~ nonDecreasing
       (percentages (trace (@processPdfForLocalization asciiHost scannedPdf))).
Proof.
  assert (E : percentages
                (trace (@processPdfForLocalization asciiHost scannedPdf))
              = [5; 10; 8; 15; 23; 30; 30; 90; 95]%Z)
    by (vm_compute; reflexivity).
  split; [exact E|]. rewrite E. unfold nonDecreasing. intros S.
  inversion S as [|? ? S1 _]. inversion S1 as [|? ? _ Hd].
  inversion Hd as [|? ? Hle]. lia.
Qed.

(** On the direct-text path the same reports never go down. *)
Example progress_on_direct_path :
  percentages (trace (@processPdfForLocalization asciiHost textPdf))
  = [5; 50; 95]%Z.
Proof. vm_compute. reflexivity. Qed.

(** C9 fails when a page does not render. On [unrenderablePdf] the
    rasterization throws the page's error after it created the canvas, and
    the canvas is not removed, neither by the rasterization nor by the run
    around it. *)
Theorem canvas_left_when_render_fails :
  result (convertPdfPagesToImageParts unrenderablePdf)
  = Thrown (JsError (lit "Invalid page request"))
  /\ filter isCanvas (trace (convertPdfPagesToImageParts unrenderablePdf))
     = [CanvasCreated]
  /\ liveCanvases (trace (convertPdfPagesToImageParts unrenderablePdf)) 0 = 1%nat
  /\ result (@processPdfForLocalization asciiHost unrenderablePdf)
     = Thrown (JsError (lit "Invalid page request"))
  /\ liveCanvases (trace (@processPdfForLocalization asciiHost unrenderablePdf)) 0
     = 1%nat.
Proof. repeat split; vm_compute; reflexivity. Qed.

(** The canvas on the path that returns, at [scannedPdf]. *)
Lemma canvas_released_on_return_witness :
  filter isCanvas (trace (convertPdfPagesToImageParts scannedPdf))
  = [CanvasCreated; CanvasRemoved].
Proof.
  refine (canvas_released_on_return scannedPdf
            [ {| data := lit "QUFB"; mimeType := lit "image/jpeg" |};
              {| data := lit "QkJC"; mimeType := lit "image/jpeg" |};
              {| data := lit "Q0ND"; mimeType := lit "image/jpeg" |};
              {| data := lit "RERE"; mimeType := lit "image/jpeg" |} ] _).
  vm_compute. reflexivity.
Defined.

(** The canvas on a path that throws, at [unrenderablePdf]. *)
Lemma canvas_kept_on_throw_witness :
  ~ In CanvasRemoved (trace (convertPdfPagesToImageParts unrenderablePdf)).
Proof.
  refine (canvas_kept_on_throw unrenderablePdf
            (JsError (lit "Invalid page request")) _).
  vm_compute. reflexivity.
Defined.

(** C7 on three records given out of order, two of them under one key. *)
Example sortedKeys_out_of_order :
  sortedKeys [pair "submit" "Submit" "send"; pair "cancel" "Cancel" "no";
              pair "email" "Email" "mail"; pair "cancel" "Abort" "no"]
  = map lit ["cancel"; "email"; "submit"]%string.
Proof. vm_compute. reflexivity. Qed.

(** The order of the reports at [textPdf] and at [scannedPdf]. *)
Lemma progress_order_witness :
  nonDecreasing (percentages (trace (@processPdfForLocalization asciiHost textPdf)))
  /\ exists rest,
      percentages (trace (@processPdfForLocalization asciiHost scannedPdf))
      = 5%Z :: 10%Z :: rest
      /\ nonDecreasing rest.
Proof.
  split.
  - refine (proj1 (@progress_order asciiHost textPdf _ extract_textPdf) _).
    vm_compute. lia.
  - refine (proj2 (@progress_order asciiHost scannedPdf _
                     extract_scannedPdf) _).
    vm_compute. lia.
Defined.

(** The regress at the four pages of [scannedPdf]. *)
Lemma progress_regresses_from_four_pages_witness :
  ~ nonDecreasing
      (percentages (trace (@processPdfForLocalization asciiHost scannedPdf))).
Proof.
  refine (@progress_regresses_from_four_pages asciiHost scannedPdf _ _
            extract_scannedPdf _ eq_refl eq_refl _).
  - vm_compute. lia.
  - vm_compute. lia.
Defined.

(** * Further properties of the service *)

(** ** The OCR loop, page by page *)

Lemma processPage_returns (w : world) (part : imagePart) (index : nat) :
  criticalPage w part index = false ->
  result (processPage w part index) = Returned (pageRecords w part index).
Proof.
  unfold criticalPage, pageRecords, processPage. rewrite result_bind.
  cbn [emit result snd].
  destruct (respondImage w index part) as [e|e|pairs]; intros C;
    try rewrite C; reflexivity.
Qed.

Lemma processPage_throws (w : world) (part : imagePart) (index : nat) :
  criticalPage w part index = true ->
  result (processPage w part index) = Thrown (JsError (lit apiCallFailed)).
Proof.
  unfold criticalPage, processPage. rewrite result_bind.
  cbn [emit result snd].
  destruct (respondImage w index part) as [e|e|pairs]; intros C;
    try rewrite C; try discriminate; reflexivity.
Qed.

Lemma mapi_app {A B} (f : A -> nat -> B) (l l' : list A) :
  forall start,
    mapi f start (l ++ l') = mapi f start l ++ mapi f (start + length l) l'.
Proof.
  induction l as [|x l IH]; intros start; simpl.
  - now rewrite Nat.add_0_r.
  - rewrite IH. now rewrite Nat.add_succ_comm.
Qed.

Lemma mapi_length {A B} (f : A -> nat -> B) (l : list A) :
  forall start, length (mapi f start l) = length l.
Proof. induction l as [|x l IH]; intros start; simpl; [|rewrite IH]; reflexivity. Qed.

Lemma existsb_mapi {A} (f : A -> nat -> bool) (l : list A) :
  forall start,
    existsb (fun b => b) (mapi f start l) = true
    <-> exists k x, nth_error l k = Some x /\ f x (start + k) = true.
Proof.
  induction l as [|y l IH]; intros start; simpl.
  - split; [discriminate | intros [[|k] [x [H _]]]; discriminate].
  - rewrite orb_true_iff, IH. split.
    + intros [H | [k [x [Hk Hx]]]].
      * exists 0%nat, y. now rewrite Nat.add_0_r.
      * exists (S k), x. now rewrite <- Nat.add_succ_comm.
    + intros [[|k] [x [Hk Hx]]]; simpl in Hk.
      * injection Hk as ->. left. now rewrite Nat.add_0_r in Hx.
      * right. exists k, x. now rewrite Nat.add_succ_comm.
Qed.

Lemma promiseAll_mapi_returns (w : world) (batch : list imagePart) :
  forall start,
    (forall k part, nth_error batch k = Some part ->
                    criticalPage w part (start + k) = false) ->
    result (promiseAll (mapi (fun part index => processPage w part index)
                             start batch))
    = Returned (mapi (pageRecords w) start batch).
Proof.
  induction batch as [|part rest IH]; intros start H; [reflexivity|].
  cbn [mapi]. rewrite promiseAll_cons_result.
  rewrite processPage_returns
    by (rewrite <- (Nat.add_0_r start); now apply (H 0%nat)).
  rewrite IH; [reflexivity|].
  intros k part' Hk. rewrite Nat.add_succ_comm. now apply (H (S k)).
Qed.

Lemma promiseAll_mapi_trace (w : world) (batch : list imagePart) :
  forall start,
    trace (promiseAll (mapi (fun part index => processPage w part index)
                            start batch))
    = mapi (fun part index => RequestImage index part) start batch.
Proof.
  induction batch as [|part rest IH]; intros start; [reflexivity|].
  cbn [mapi promiseAll]. specialize (IH (S start)).
  pose proof (processPage_trace w part start) as T.
  destruct (processPage w part start) as [t o].
  destruct (promiseAll _) as [t' os]. simpl in *. now subst.
Qed.

Lemma slice_batch {A} (l : list A) (i : nat) :
  slice i (i + BATCH_SIZE) l = firstn BATCH_SIZE (skipn i l).
Proof. unfold slice. now replace (i + BATCH_SIZE - i)%nat with BATCH_SIZE by lia. Qed.

(** The pages from [i] on are the next batch followed by the pages from
    [i + BATCH_SIZE] on, and numbering them goes along. *)
Lemma mapi_batches {A B} (f : A -> nat -> B) (l : list A) (i : nat) :
  mapi f i (skipn i l)
  = mapi f i (firstn BATCH_SIZE (skipn i l))
    ++ mapi f (i + BATCH_SIZE) (skipn (i + BATCH_SIZE) l).
Proof.
  rewrite <- (firstn_skipn BATCH_SIZE (skipn i l)) at 1.
  rewrite mapi_app, skipn_skipn, (Nat.add_comm BATCH_SIZE i).
  f_equal.
  destruct (Nat.le_gt_cases BATCH_SIZE (length (skipn i l))) as [Hle|Hgt].
  - now rewrite firstn_length_le.
  - rewrite (skipn_all2 (n := i + BATCH_SIZE)); [reflexivity|].
    rewrite length_skipn in Hgt. lia.
Qed.

Section OcrLoop.
Variable w : world.
Variable imageParts : list imagePart.

Lemma batch_pages (i k : nat) (part : imagePart) :
  nth_error (firstn BATCH_SIZE (skipn i imageParts)) k = Some part ->
  nth_error imageParts (i + k) = Some part.
Proof.
  rewrite nth_error_firstn.
  destruct (k <? BATCH_SIZE)%nat; [|discriminate].
  now rewrite nth_error_skipn.
Qed.

Lemma ocrBatches_returns (fuel : nat) :
  (forall k part, nth_error imageParts k = Some part ->
                  criticalPage w part k = false) ->
  forall i all,
    (length imageParts <= i + fuel)%nat ->
    result (ocrBatches w imageParts fuel i all)
    = Returned (all ++ concat (mapi (pageRecords w) i (skipn i imageParts))).
Proof.
  intros Hok. induction fuel as [|fuel IH]; intros i all Hf; cbn [ocrBatches].
  - rewrite skipn_all2 by lia. simpl. now rewrite app_nil_r.
  - destruct (i <? length imageParts)%nat eqn:L.
    + rewrite result_bind. cbn [onProgress emit result snd].
      rewrite result_bind, slice_batch.
      rewrite promiseAll_mapi_returns
        by (intros k part Hk; apply Hok; now apply batch_pages).
      rewrite IH by (unfold BATCH_SIZE; lia).
      rewrite (mapi_batches (pageRecords w) imageParts i).
      now rewrite concat_app, app_assoc.
    + apply Nat.ltb_ge in L. rewrite skipn_all2 by lia. simpl.
      now rewrite app_nil_r.
Qed.

Lemma ocrBatches_requests (fuel : nat) :
  (forall k part, nth_error imageParts k = Some part ->
                  criticalPage w part k = false) ->
  forall i all,
    (length imageParts <= i + fuel)%nat ->
    filter isRequestImage (trace (ocrBatches w imageParts fuel i all))
    = mapi (fun part index => RequestImage index part) i (skipn i imageParts).
Proof.
  intros Hok. induction fuel as [|fuel IH]; intros i all Hf; cbn [ocrBatches].
  - now rewrite skipn_all2 by lia.
  - destruct (i <? length imageParts)%nat eqn:L.
    + rewrite trace_bind. cbn [onProgress emit trace result fst snd app filter].
      cbn [isRequestImage]. rewrite trace_bind, filter_app, slice_batch.
      rewrite promiseAll_mapi_trace.
      rewrite promiseAll_mapi_returns
        by (intros k part Hk; apply Hok; now apply batch_pages).
      rewrite IH by (unfold BATCH_SIZE; lia).
      rewrite (mapi_batches (fun part index => RequestImage index part)
                 imageParts i).
      f_equal. apply filter_all. intros e He.
      apply mapi_In in He. now destruct He as [part [index ->]].
    + apply Nat.ltb_ge in L. now rewrite skipn_all2 by lia.
Qed.

Lemma ocrBatches_throws (p : nat) (part : imagePart) (fuel : nat) :
  nth_error imageParts p = Some part ->
  criticalPage w part p = true ->
  forall i all,
    (i <= p)%nat -> (length imageParts <= i + fuel)%nat ->
    result (ocrBatches w imageParts fuel i all)
    = Thrown (JsError (lit apiCallFailed)).
Proof.
  intros Hp C.
  assert (Hlt : (p < length imageParts)%nat).
  { apply nth_error_Some. rewrite Hp. discriminate. }
  induction fuel as [|fuel IH]; intros i all Hi Hf; [lia|].
  cbn [ocrBatches].
  replace (i <? length imageParts)%nat with true
    by (symmetry; apply Nat.ltb_lt; lia).
  rewrite result_bind. cbn [onProgress emit result snd].
  rewrite result_bind.
  set (promises := mapi _ i _).
  assert (R : forall m, In m promises ->
                result m = Thrown (JsError (lit apiCallFailed))
                \/ exists a, result m = Returned a).
  { intros m Hm. apply mapi_In in Hm. destruct Hm as [x [index ->]].
    apply processPage_result. }
  destruct (Nat.lt_ge_cases p (i + BATCH_SIZE)) as [Hin|Hout].
  - rewrite (promiseAll_thrown promises _ R); [reflexivity|].
    exists (processPage w part p). split; [|now apply processPage_throws].
    pose proof (mapi_nth (fun part index => processPage w part index)
                  (slice i (i + BATCH_SIZE) imageParts) i (p - i) part) as Hm.
    rewrite slice_nth in Hm by lia.
    replace (i + (p - i))%nat with p in Hm by lia.
    exact (Hm Hp).
  - destruct (promiseAll_cases promises _ R) as [-> | [l ->]]; [reflexivity|].
    apply IH; unfold BATCH_SIZE in *; lia.
Qed.

Lemma ocrBatches_result :
  result (ocrBatches w imageParts (length imageParts) 0 [])
  = if existsb (fun b => b) (mapi (criticalPage w) 0 imageParts)
    then Thrown (JsError (lit apiCallFailed))
    else Returned (concat (mapi (pageRecords w) 0 imageParts)).
Proof.
  destruct (existsb _ _) eqn:E.
  - apply existsb_mapi in E. destruct E as [p [part [Hp C]]].
    now apply (ocrBatches_throws p part); [| | lia | lia].
  - rewrite ocrBatches_returns; [reflexivity | | lia].
    intros k part Hk.
    destruct (criticalPage w part k) eqn:C; [|reflexivity].
    assert (T : existsb (fun b => b) (mapi (criticalPage w) 0 imageParts)
                = true) by (apply existsb_mapi; now exists k, part).
    congruence.
Qed.

(** The OCR loop throws the service's API error when [processPage] throws
    for some page, whatever the other pages do. Otherwise it resolves to the
    records of all pages, in page order, a failed page contributing
    nothing: the batching leaves no mark on the result. *)
Theorem ocr_loop_outcome :
  result (ocrBatches w imageParts (length imageParts) 0 [])
  = if existsb (fun b => b) (mapi (criticalPage w) 0 imageParts)
    then Thrown (JsError (lit apiCallFailed))
    else Returned (concat (mapi (pageRecords w) 0 imageParts)).
Proof.
  destruct (existsb _ _) eqn:E.
  - apply existsb_mapi in E. destruct E as [p [part [Hp C]]].
    now apply (ocrBatches_throws p part); [| | lia | lia].
  - apply ocrBatches_returns; [|lia].
    intros k part Hk.
    destruct (criticalPage w part k) eqn:C; [|reflexivity].
    assert (T : existsb (fun b => b) (mapi (criticalPage w) 0 imageParts)
                = true) by (apply existsb_mapi; now exists k, part).
    congruence.
Qed.

(** When [processPage] throws for no page, the loop sends one request for
    every page, in page order, each under the page's index. *)
Theorem ocr_loop_requests :
  existsb (fun b => b) (mapi (criticalPage w) 0 imageParts) = false ->
  filter isRequestImage
    (trace (ocrBatches w imageParts (length imageParts) 0 []))
  = mapi (fun part index => RequestImage index part) 0 imageParts.
Proof.
  intros E. rewrite ocrBatches_requests; [reflexivity | | lia].
  intros k part Hk.
  destruct (criticalPage w part k) eqn:C; [|reflexivity].
  assert (T : existsb (fun b => b) (mapi (criticalPage w) 0 imageParts)
              = true) by (apply existsb_mapi; now exists k, part).
  congruence.
Qed.
End OcrLoop.

(** ** The pace of the image requests *)

Lemma requestRuns_app (n : nat) (t t' : list effect) :
  (forall run, requestRuns n t' run = true) ->
  forall run, requestRuns n t run = true -> requestRuns n (t ++ t') run = true.
Proof.
  intros H'. induction t as [|e t IH]; intros run; simpl; [intros _; apply H'|].
  destruct (isRequestImage e); [|apply IH].
  rewrite !andb_true_iff. intros [Hn Ht]. split; [assumption | now apply IH].
Qed.

Lemma requestRuns_none (n : nat) (t : list effect) :
  forallb (fun e => negb (isRequestImage e)) t = true ->
  forall run, requestRuns n t run = true.
Proof.
  induction t as [|e t IH]; simpl; [reflexivity|].
  rewrite andb_true_iff. intros [He Ht] run.
  destruct (isRequestImage e); [discriminate | now apply IH].
Qed.

Lemma requestRuns_batch (n : nat) (batch : list imagePart) :
  forall start run,
    (run + length batch <= n)%nat ->
    requestRuns n (mapi (fun part index => RequestImage index part)
                        start batch) run = true.
Proof.
  induction batch as [|part rest IH]; intros start run H;
    cbn [mapi requestRuns isRequestImage]; [reflexivity|].
  simpl in H. apply andb_true_intro. split.
  - apply Nat.leb_le. lia.
  - apply IH. lia.
Qed.

Lemma ocrBatches_paced (w : world) (imageParts : list imagePart)
    (fuel : nat) :
  forall i all run,
    requestRuns BATCH_SIZE (trace (ocrBatches w imageParts fuel i all)) run
    = true.
Proof.
  induction fuel as [|fuel IH]; intros i all run; cbn [ocrBatches];
    [reflexivity|].
  destruct (i <? length imageParts)%nat; [|reflexivity].
  rewrite trace_bind.
  cbn [onProgress emit trace result fst snd app requestRuns isRequestImage].
  rewrite trace_bind, slice_batch, promiseAll_mapi_trace.
  apply requestRuns_app.
  - intros run'. destruct (result (promiseAll _)); [apply IH | reflexivity].
  - apply requestRuns_batch.
    pose proof (firstn_le_length BATCH_SIZE (skipn i imageParts)). lia.
Qed.

(** The rasterization reports progress and handles its canvas, nothing
    else. *)
Lemma convert_effects (w : world) :
  forallb (fun e => isProgress e || isCanvas e)
          (trace (convertPdfPagesToImageParts w)) = true.
Proof.
  unfold convertPdfPagesToImageParts.
  destruct (pdfjsLib w); simpl; [|reflexivity].
  destruct (getDocument w) as [pdf|e]; simpl; [|reflexivity].
  destruct (getContext w); simpl; [|reflexivity].
  pose proof (renderPages_trace (length pdf) pdf 1 []) as R.
  destruct (renderPages (length pdf) 1 pdf []) as [t [parts|e]]; simpl in *.
  - rewrite forallb_app. simpl. rewrite andb_true_r.
    revert R. apply forallb_weaken. now intros [].
  - revert R. apply forallb_weaken. now intros [].
Qed.

Section Pace.
Context {host : Host}.

(** The image requests of a run come in groups of at most [BATCH_SIZE]:
    never do more than five of them follow one another without a progress
    report in between. *)
Theorem requests_in_batches (w : world) :
  requestRuns BATCH_SIZE (trace (processPdfForLocalization w)) 0 = true.
Proof.
  assert (P : forall m : string,
             forall run, requestRuns BATCH_SIZE
                           (trace (@throwError (list TranslationPair) m)) run
                         = true) by reflexivity.
  assert (Ocr : forall run,
             requestRuns BATCH_SIZE
               (trace (generateLocalizationFromPdfImages w)) run = true).
  { intros run. unfold generateLocalizationFromPdfImages.
    rewrite trace_bind. apply requestRuns_app.
    - intros run'.
      destruct (result (convertPdfPagesToImageParts w)) as [parts|e];
        [|reflexivity].
      destruct (length parts =? 0)%nat; [reflexivity|].
      rewrite trace_bind. apply requestRuns_app; [|apply ocrBatches_paced].
      intros run''.
      now destruct (result (ocrBatches w parts (length parts) 0 [])).
    - apply requestRuns_none. generalize (convert_effects w).
      apply forallb_weaken. now intros []. }
  rewrite process_trace. apply requestRuns_app.
  - intros run. now destruct (result (localizationData w)).
  - unfold localizationData. rewrite trace_bind.
    cbn [onProgress emit trace result fst snd app requestRuns isRequestImage].
    rewrite trace_bind, extract_trace. cbn [app].
    destruct (result (extractTextFromPdf w)) as [texts|e]; [|reflexivity].
    rewrite trace_bind. apply requestRuns_app.
    + intros run.
      match goal with
      | |- context [result ?m] => destruct (result m) as [data|e]
      end; [|reflexivity].
      now destruct (length data =? 0)%nat.
    + destruct (5 <? length texts)%nat.
      * rewrite trace_bind, generateKeys_trace. reflexivity.
      * rewrite trace_bind.
        cbn [onProgress emit trace result fst snd app requestRuns
               isRequestImage].
        apply Ocr.
Qed.
End Pace.

(** ** The rasterization *)

Lemma pushImagePart_length (parts : list imagePart) (url : jsstring) :
  (length parts <= length (pushImagePart parts url) <= S (length parts))%nat.
Proof.
  unfold pushImagePart. destruct (nth_error _ 1) as [d|]; [|lia].
  destruct (truthy d); [|lia]. rewrite length_app. simpl. lia.
Qed.

Lemma pushImagePart_jpeg (parts : list imagePart) (url : jsstring) :
  Forall (fun part => mimeType part = lit "image/jpeg" /\ data part <> [])
         parts ->
  Forall (fun part => mimeType part = lit "image/jpeg" /\ data part <> [])
         (pushImagePart parts url).
Proof.
  intros H. unfold pushImagePart. destruct (nth_error _ 1) as [d|];
    [|assumption].
  destruct (truthy d) eqn:T; [|assumption].
  apply Forall_app. split; [assumption|]. constructor; [|constructor].
  simpl. split; [reflexivity|]. intros ->. discriminate.
Qed.

Lemma imageParts_fold (urls : list jsstring) :
  forall parts,
    (length (fold_left pushImagePart urls parts)
     <= length parts + length urls)%nat
    /\ (Forall (fun part => mimeType part = lit "image/jpeg"
                            /\ data part <> []) parts ->
        Forall (fun part => mimeType part = lit "image/jpeg"
                            /\ data part <> [])
               (fold_left pushImagePart urls parts)).
Proof.
  induction urls as [|url rest IH]; intros parts; simpl.
  - split; [lia | auto].
  - destruct (IH (pushImagePart parts url)) as [L F].
    pose proof (pushImagePart_length parts url). split; [lia|].
    intros H0. apply F. now apply pushImagePart_jpeg.
Qed.

Lemma renderPages_result (numPages : nat) (pages : list pdfPage) :
  forall i parts,
    result (renderPages numPages i pages parts)
    = match firstRenderError pages with
      | Some e => Thrown e
      | None => Returned (fold_left pushImagePart (map dataURL pages) parts)
      end.
Proof.
  induction pages as [|page rest IH]; intros i parts; cbn [renderPages];
    [reflexivity|].
  rewrite result_bind. cbn [onProgress emit result snd].
  rewrite result_bind. cbn [await result snd firstRenderError].
  destruct (renderOutcome page) as [[]|e]; [|reflexivity].
  rewrite IH. reflexivity.
Qed.

Lemma renderPages_reports (numPages : nat) (pages : list pdfPage) :
  firstRenderError pages = None ->
  forall i parts,
    percentages (trace (renderPages numPages i pages parts))
    = map (fun k => progressPercentage k numPages) (seq i (length pages)).
Proof.
  induction pages as [|page rest IH]; intros H i parts; cbn [renderPages];
    [reflexivity|].
  cbn [firstRenderError] in H.
  rewrite trace_bind. cbn [onProgress emit trace result fst snd app].
  cbn [percentages length seq map]. f_equal.
  rewrite trace_bind. destruct (renderOutcome page) as [[]|e];
    [|discriminate].
  cbn [await trace result fst snd app]. now apply IH.
Qed.

(** When the rasterization returns, the document opened, the canvas gave a
    context and every page rendered; the image parts are those of the pages
    whose data URL has a payload after its first comma, in page order: at
    most one per page, each a JPEG with data. It reported once per page, on
    the scale of 30. *)
Theorem rasterization_returns (w : world) (imageParts : list imagePart) :
  result (convertPdfPagesToImageParts w) = Returned imageParts ->
  exists pdf,
    getDocument w = Returned pdf
    /\ getContext w = true
    /\ firstRenderError pdf = None
    /\ imageParts = imagePartsOf pdf
    /\ (length imageParts <= length pdf)%nat
    /\ Forall (fun part => mimeType part = lit "image/jpeg"
                           /\ data part <> []) imageParts
    /\ percentages (trace (convertPdfPagesToImageParts w))
       = map (fun i => progressPercentage i (length pdf))
             (seq 1 (length pdf)).
Proof.
  unfold convertPdfPagesToImageParts.
  destruct (pdfjsLib w); cbn [negb]; [|discriminate].
  rewrite result_bind, trace_bind.
  destruct (getDocument w) as [pdf|e]; cbn [await trace result fst snd app];
    [|discriminate].
  rewrite result_bind, trace_bind. cbn [emit trace result fst snd app].
  destruct (getContext w); cbn [negb]; [|discriminate].
  rewrite result_bind, trace_bind, renderPages_result.
  destruct (firstRenderError pdf) as [e|] eqn:F; [discriminate|].
  cbn [emit ret trace result fst snd]. intros [= <-].
  exists pdf. do 4 (split; [first [reflexivity | exact F]|]).
  split; [|split].
  - destruct (imageParts_fold (map dataURL pdf) []) as [L _].
    unfold imagePartsOf. rewrite length_map in L. exact L.
  - destruct (imageParts_fold (map dataURL pdf) []) as [_ J].
    apply J. constructor.
  - cbn [percentages]. rewrite percentages_app, renderPages_reports by exact F.
    cbn [percentages]. now rewrite app_nil_r.
Qed.

(** A page that does not render stops the rasterization with the page's own
    error, whatever the later pages would do. *)
Theorem rasterization_throws_first_error (w : world) (pdf : list pdfPage)
    (e : thrown) :
  pdfjsLib w = true ->
  getDocument w = Returned pdf ->
  getContext w = true ->
  firstRenderError pdf = Some e ->
  result (convertPdfPagesToImageParts w) = Thrown e.
Proof.
  intros Hlib Hdoc Hctx F. unfold convertPdfPagesToImageParts.
  rewrite Hlib, Hdoc. cbn [negb]. rewrite result_bind.
  cbn [await result snd]. rewrite result_bind. cbn [emit result snd].
  rewrite Hctx. cbn [negb]. now rewrite result_bind, renderPages_result, F.
Qed.

(** ** The extracted texts *)

Lemma addItem_fold (items : list jsstring) :
  forall acc,
    NoDup acc ->
    NoDup (fold_left addItem items acc)
    /\ forall t,
        In t (fold_left addItem items acc)
        <-> In t acc
            \/ ((1 < length t)%nat /\ exists str, In str items /\ t = trim str).
Proof.
  induction items as [|str rest IH]; intros acc N; simpl.
  - split; [assumption|]. intros t. split; [tauto|].
    intros [H | [_ [s [[] _]]]]. assumption.
  - assert (N' : NoDup (addItem acc str)).
    { unfold addItem. destruct (1 <? str_length (trim str))%nat;
        [now apply set_add_NoDup | assumption]. }
    destruct (IH (addItem acc str) N') as [N'' I]. split; [assumption|].
    intros t. rewrite I. unfold addItem, str_length.
    destruct (1 <? length (trim str))%nat eqn:L.
    + apply Nat.ltb_lt in L. rewrite set_add_In. split.
      * intros [[-> | H] | [Ht [s [Hs E]]]]; [right | now left | right].
        -- split; [assumption|]. exists str. split; [now left | reflexivity].
        -- split; [assumption|]. exists s. split; [now right | assumption].
      * intros [H | [Ht [s [[<- | Hs] E]]]]; [left; now right | |].
        -- left. now left.
        -- right. split; [assumption|]. now exists s.
    + apply Nat.ltb_ge in L. split.
      * intros [H | [Ht [s [Hs E]]]]; [now left | right].
        split; [assumption|]. exists s. split; [now right | assumption].
      * intros [H | [Ht [s [[<- | Hs] E]]]]; [now left | subst t; lia |].
        right. split; [assumption|]. now exists s.
Qed.

Lemma addPage_fold (pages : list pdfPage) :
  forall acc,
    NoDup acc ->
    NoDup (fold_left addPage pages acc)
    /\ forall t,
        In t (fold_left addPage pages acc)
        <-> In t acc
            \/ ((1 < length t)%nat
                /\ exists page str,
                    In page pages /\ In str (textItems page) /\ t = trim str).
Proof.
  induction pages as [|page rest IH]; intros acc N; simpl.
  - split; [assumption|]. intros t. split; [tauto|].
    intros [H | [_ [p [s [[] _]]]]]. assumption.
  - destruct (addItem_fold (textItems page) acc N) as [N' I'].
    destruct (IH (addPage acc page) N') as [N'' I]. split; [assumption|].
    intros t. rewrite I. unfold addPage at 1. rewrite I'. split.
    + intros [[H | [Ht [s [Hs E]]]] | [Ht [p [s [Hp [Hs E]]]]]].
      * now left.
      * right. split; [assumption|]. exists page, s. auto.
      * right. split; [assumption|]. exists p, s. auto.
    + intros [H | [Ht [p [s [[<- | Hp] [Hs E]]]]]].
      * left. now left.
      * left. right. split; [assumption|]. now exists s.
      * right. split; [assumption|]. now exists p, s.
Qed.

(** The extraction returns each text once. A string is among the texts
    exactly when it is the trimmed [str] of some text item of some page and
    is longer than one code unit. *)
Theorem extracted_texts (w : world) (texts : list jsstring) :
  result (extractTextFromPdf w) = Returned texts ->
  exists pdf,
    getDocument w = Returned pdf
    /\ NoDup texts
    /\ forall t,
        In t texts
        <-> (1 < length t)%nat
            /\ exists page str,
                In page pdf /\ In str (textItems page) /\ t = trim str.
Proof.
  intros H. destruct (extract_returned w texts H) as [_ [_ [pdf [Hdoc ->]]]].
  exists pdf. split; [assumption|].
  destruct (addPage_fold pdf [] (NoDup_nil _)) as [N I].
  split; [assumption|]. intros t. rewrite I. simpl. tauto.
Qed.

(** ** The two JSON maps *)

Lemma map_has_keys {V V'} (k : jsstring) (m : jsMap V) (m' : jsMap V') :
  map fst m = map fst m' -> map_has k m = map_has k m'.
Proof.
  intros E. apply eq_true_iff_eq. now rewrite !map_has_In, E.
Qed.

Lemma map_replace_keys {V} (k : jsstring) (v : V) (m : jsMap V) :
  map fst (map_replace k v m) = map fst m.
Proof.
  induction m as [|[k' v'] m IH]; simpl; [reflexivity|].
  destruct (str_eqb k' k); simpl; [reflexivity | now rewrite IH].
Qed.

Lemma map_set_keys {V} (k : jsstring) (v : V) (m : jsMap V) :
  map fst (map_set k v m)
  = if map_has k m then map fst m else map fst m ++ [k].
Proof.
  unfold map_set. destruct (map_has k m).
  - apply map_replace_keys.
  - now rewrite map_app.
Qed.

Lemma map_replace_In {V} (k : jsstring) (v : V) (m : jsMap V) :
  map_has k m = true -> In (k, v) (map_replace k v m).
Proof.
  induction m as [|[k' v'] m IH]; simpl; [discriminate|].
  destruct (str_eqb k' k) eqn:E; simpl.
  - intros _. left. apply str_eqb_eq in E. now subst.
  - intros H. right. now apply IH.
Qed.

Lemma map_replace_other {V} (k k' : jsstring) (v v' : V) (m : jsMap V) :
  k <> k' -> In (k, v) m -> In (k, v) (map_replace k' v' m).
Proof.
  intros Hne. induction m as [|[k0 v0] m IH]; simpl; [tauto|].
  destruct (str_eqb k0 k') eqn:E.
  - apply str_eqb_eq in E. subst k0. intros [[= -> _] | H]; [congruence|].
    now right.
  - intros [H | H]; [now left | right; now apply IH].
Qed.

Lemma map_set_In {V} (k : jsstring) (v : V) (m : jsMap V) :
  In (k, v) (map_set k v m).
Proof.
  unfold map_set. destruct (map_has k m) eqn:H.
  - now apply map_replace_In.
  - apply in_or_app. right. now left.
Qed.

Lemma map_set_other {V} (k k' : jsstring) (v v' : V) (m : jsMap V) :
  k <> k' -> In (k, v) m -> In (k, v) (map_set k' v' m).
Proof.
  intros Hne H. unfold map_set. destruct (map_has k' m).
  - now apply map_replace_other.
  - apply in_or_app. now left.
Qed.

Lemma NoDup_snoc {A} (l : list A) (x : A) :
  NoDup l -> ~ In x l -> NoDup (l ++ [x]).
Proof.
  intros N H. apply NoDup_rev in N. rewrite <- (rev_involutive (l ++ [x])).
  apply NoDup_rev. rewrite rev_app_distr. simpl. constructor; [|assumption].
  now rewrite <- in_rev.
Qed.

Lemma NoDup_keys_value {V} (k : jsstring) (v v' : V) (m : jsMap V) :
  NoDup (map fst m) -> In (k, v) m -> In (k, v') m -> v = v'.
Proof.
  induction m as [|[k0 v0] m IH]; simpl; [tauto|].
  intros N. inversion N as [|? ? Hnot N']; subst.
  intros [[= -> ->] | H] [[= ->] | H'].
  - reflexivity.
  - destruct Hnot. apply in_map_iff. now exists (k, v').
  - subst. destruct Hnot. apply in_map_iff. now exists (k, v).
  - now apply IH.
Qed.

Lemma obj_set_eq (k v : jsstring) (obj : jsObject) :
  obj_set k v obj
  = if str_eqb k (lit "__proto__") then obj else map_set k v obj.
Proof. reflexivity. Qed.

Section Translations.
Variable f : TranslationPair -> jsstring.

(** The loop of [generateFlutterFiles] for one of the two maps. *)
Let build (data : list TranslationPair) (obj : jsObject) : jsObject :=
  fold_left (fun obj item => obj_set (key item) (f item) obj) data obj.

Lemma build_keys (data : list TranslationPair) :
  forall obj,
    NoDup (map fst obj) ->
    NoDup (map fst (build data obj))
    /\ forall k,
        In k (map fst (build data obj))
        <-> In k (map fst obj)
            \/ (In k (map key data) /\ k <> lit "__proto__").
Proof.
  induction data as [|item rest IH]; intros obj N; simpl.
  - split; [assumption|]. intros k. tauto.
  - rewrite obj_set_eq.
    destruct (str_eqb (key item) (lit "__proto__")) eqn:P.
    + apply str_eqb_eq in P. destruct (IH obj N) as [N' I].
      split; [assumption|]. intros k. rewrite I.
      split; [intros [H | [H Hk]]; [now left | right; tauto]|].
      intros [H | [[<- | H] Hk]]; [now left | congruence | right; tauto].
    + assert (P' : key item <> lit "__proto__").
      { intros E. apply str_eqb_eq in E. congruence. }
      assert (N1 : NoDup (map fst (map_set (key item) (f item) obj))).
      { rewrite map_set_keys. destruct (map_has (key item) obj) eqn:H;
          [assumption|].
        apply NoDup_snoc; [assumption|]. intros Hin.
        apply map_has_In in Hin. congruence. }
      destruct (IH _ N1) as [N' I]. split; [assumption|].
      intros k. rewrite I, map_set_keys.
      destruct (map_has (key item) obj) eqn:H.
      * apply map_has_In in H. split.
        -- intros [Hk | [Hk Hp]]; [now left | right; tauto].
        -- intros [Hk | [[<- | Hk] Hp]]; [now left | now left | right; tauto].
      * rewrite in_app_iff. simpl. split.
        -- intros [[Hk | [<- | []]] | [Hk Hp]];
             [now left | right; split; [now left | assumption] | right; tauto].
        -- intros [Hk | [[<- | Hk] Hp]];
             [left; now left | left; right; now left | right; tauto].
Qed.

Lemma build_keeps (data : list TranslationPair) (k v : jsstring) :
  ~ In k (map key data) ->
  forall obj, In (k, v) obj -> In (k, v) (build data obj).
Proof.
  induction data as [|item rest IH]; intros Hk obj H; simpl; [assumption|].
  simpl in Hk. apply IH; [tauto|]. rewrite obj_set_eq.
  destruct (str_eqb (key item) (lit "__proto__")); [assumption|].
  apply map_set_other; [|assumption]. intros ->. tauto.
Qed.

Lemma build_last (l1 l2 : list TranslationPair) (r : TranslationPair) :
  ~ In (key r) (map key l2) ->
  key r <> lit "__proto__" ->
  forall obj, In (key r, f r) (build (l1 ++ r :: l2) obj).
Proof.
  intros Hlast Hp obj. unfold build. rewrite fold_left_app. simpl.
  apply build_keeps; [assumption|]. rewrite obj_set_eq.
  destruct (str_eqb (key r) (lit "__proto__")) eqn:P;
    [apply str_eqb_eq in P; congruence|].
  apply map_set_In.
Qed.
End Translations.

(** The two JSON maps hold the same keys, each once: the keys of the
    records other than ["__proto__"], which an assignment never stores. So
    every key of the maps is a constant of [locale_keys.g.dart], and every
    constant but ["__proto__"] is a key of the maps. *)
Theorem json_maps_keys (data : list TranslationPair) :
  NoDup (map fst (enTranslations data))
  /\ NoDup (map fst (arTranslations data))
  /\ (forall k,
         In k (map fst (enTranslations data))
         <-> In k (map key data) /\ k <> lit "__proto__")
  /\ (forall k,
         In k (map fst (arTranslations data))
         <-> In k (map fst (enTranslations data)))
  /\ (forall k,
         In k (map fst (enTranslations data)) -> In k (sortedKeys data))
  /\ (forall k,
         In k (sortedKeys data) -> k <> lit "__proto__" ->
         In k (map fst (enTranslations data))).
Proof.
  destruct (build_keys en_text data [] (NoDup_nil _)) as [Ne Ie].
  destruct (build_keys ar_text data [] (NoDup_nil _)) as [Na Ia].
  destruct (sortedKeys_spec data) as [_ Is].
  simpl in Ie, Ia.
  assert (Ee : forall k, In k (map fst (enTranslations data))
                         <-> In k (map key data) /\ k <> lit "__proto__").
  { intros k. unfold enTranslations. rewrite Ie. tauto. }
  assert (Ea : forall k, In k (map fst (arTranslations data))
                         <-> In k (map key data) /\ k <> lit "__proto__").
  { intros k. unfold arTranslations. rewrite Ia. tauto. }
  split; [exact Ne|]. split; [exact Na|]. split; [exact Ee|].
  split; [intros k; now rewrite Ee, Ea|].
  split.
  - intros k Hk. apply Is. now apply Ee in Hk.
  - intros k Hk Hp. apply Ee. split; [now apply Is | assumption].
Qed.

(** When records share a key, the last one wins in both maps: the value
    stored under the key is the text of the last record that has it. *)
Theorem last_record_wins (l1 l2 : list TranslationPair) (r : TranslationPair) :
  ~ In (key r) (map key l2) ->
  key r <> lit "__proto__" ->
  (forall v, In (key r, v) (enTranslations (l1 ++ r :: l2)) <-> v = en_text r)
  /\ (forall v,
         In (key r, v) (arTranslations (l1 ++ r :: l2)) <-> v = ar_text r).
Proof.
  intros Hlast Hp.
  destruct (build_keys en_text (l1 ++ r :: l2) [] (NoDup_nil _)) as [Ne _].
  destruct (build_keys ar_text (l1 ++ r :: l2) [] (NoDup_nil _)) as [Na _].
  pose proof (build_last en_text l1 l2 r Hlast Hp []) as He.
  pose proof (build_last ar_text l1 l2 r Hlast Hp []) as Ha.
  split; intros v; (split; [|intros ->; assumption]); intros H.
  - exact (NoDup_keys_value _ _ _ _ Ne H He).
  - exact (NoDup_keys_value _ _ _ _ Na H Ha).
Qed.

(** ** The outcome of a run *)

Section Outcomes.
Context {host : Host}.

(** When the document cannot be read, the run stops there: it reported 5%,
    sent nothing to the model, created no canvas, and throws the error of
    the extraction itself. *)
Theorem unreadable_pdf_aborts (w : world) (e : thrown) :
  result (extractTextFromPdf w) = Thrown e ->
  processPdfForLocalization w
  = ([Progress (lit "Extracting text from PDF...") 5], Thrown e).
Proof.
  intros H.
  assert (E : extractTextFromPdf w = ([], Thrown e)).
  { rewrite (M_eta (extractTextFromPdf w)), extract_trace, H. reflexivity. }
  unfold processPdfForLocalization, localizationData. rewrite E. reflexivity.
Qed.

(** On the direct-text path the run returns files exactly when the model's
    answer parses to at least one record, and the files are built from
    that answer and nothing else. *)
Theorem direct_path_outcome (w : world) (texts : list jsstring)
    (files : list GeneratedFile) :
  result (extractTextFromPdf w) = Returned texts ->
  (5 < length texts)%nat ->
  result (processPdfForLocalization w) = Returned files
  <-> exists data,
        respondText w texts = Parsed data
        /\ data <> []
        /\ files = generateFlutterFiles data.
Proof.
  intros H L. rewrite process_result, (localizationData_direct w texts H L).
  rewrite 3 result_bind. cbn [onProgress emit result snd].
  unfold generateKeysAndTranslations. rewrite result_bind.
  cbn [emit result snd].
  destruct (respondText w texts) as [e|e|data].
  - destruct (isCriticalText e); (split; [discriminate|]);
      intros [d [D _]]; discriminate.
  - split; [discriminate|]. intros [d [D _]]. discriminate.
  - cbn [ret result snd]. destruct data as [|item rest].
    + split; [discriminate|]. intros [d [[= <-] [N _]]]. now destruct N.
    + cbn [length Nat.eqb ret result snd]. split.
      * intros [= <-]. exists (item :: rest). repeat split. discriminate.
      * intros [d [[= <-] [_ ->]]]. reflexivity.
Qed.

Lemma ocr_result (w : world) :
  result (generateLocalizationFromPdfImages w)
  = match result (convertPdfPagesToImageParts w) with
    | Thrown e => Thrown e
    | Returned imageParts =>
        if (length imageParts =? 0)%nat
        then Thrown (JsError
                       (lit "Could not convert PDF to images for OCR processing."))
        else if existsb (fun b => b) (mapi (criticalPage w) 0 imageParts)
        then Thrown (JsError (lit apiCallFailed))
        else Returned
               (consolidate (concat (mapi (pageRecords w) 0 imageParts)))
    end.
Proof.
  unfold generateLocalizationFromPdfImages. rewrite result_bind.
  destruct (result (convertPdfPagesToImageParts w)) as [parts|e];
    [|reflexivity].
  destruct (length parts =? 0)%nat; [reflexivity|].
  rewrite result_bind, ocrBatches_result.
  now destruct (existsb _ _).
Qed.

(** The result of a run on the OCR path, in full. It throws what the
    rasterization throws; the could-not-convert error when no page gave an
    image; the API error when [processPage] throws for some page; the
    no-localizable-text error when the consolidation of the records of all
    pages is empty. Otherwise it returns the files built from that
    consolidation. *)
Theorem ocr_path_outcome (w : world) (texts : list jsstring) :
  result (extractTextFromPdf w) = Returned texts ->
  (length texts <= 5)%nat ->
  result (processPdfForLocalization w)
  = match result (convertPdfPagesToImageParts w) with
    | Thrown e => Thrown e
    | Returned imageParts =>
        if (length imageParts =? 0)%nat
        then Thrown (JsError
                       (lit "Could not convert PDF to images for OCR processing."))
        else if existsb (fun b => b) (mapi (criticalPage w) 0 imageParts)
        then Thrown (JsError (lit apiCallFailed))
        else if (length (consolidate
                           (concat (mapi (pageRecords w) 0 imageParts))) =? 0)%nat
        then Thrown (JsError (lit noLocalizableText))
        else Returned
               (generateFlutterFiles
                  (consolidate (concat (mapi (pageRecords w) 0 imageParts))))
    end.
Proof.
  intros H L. rewrite process_result, (localizationData_ocr w texts H L).
  rewrite 3 result_bind. cbn [onProgress emit result snd].
  rewrite ocr_result.
  destruct (result (convertPdfPagesToImageParts w)) as [parts|e];
    [|reflexivity].
  destruct (length parts =? 0)%nat; [reflexivity|].
  destruct (existsb _ _); [reflexivity|].
  now destruct (length _ =? 0)%nat.
Qed.

(** When the rasterization returns no image at all, as for a document
    without pages, the run throws the could-not-convert error and has sent
    no request to the model. *)
Theorem no_image_no_request (w : world) (texts : list jsstring) :
  result (extractTextFromPdf w) = Returned texts ->
  (length texts <= 5)%nat ->
  result (convertPdfPagesToImageParts w) = Returned [] ->
  result (processPdfForLocalization w)
  = Thrown (JsError
              (lit "Could not convert PDF to images for OCR processing."))
  /\ filter isRequestImage (trace (processPdfForLocalization w)) = []
  /\ filter isRequestText (trace (processPdfForLocalization w)) = [].
Proof.
  intros H L C. split; [|split].
  - rewrite process_result, (localizationData_ocr w texts H L).
    rewrite 3 result_bind. cbn [onProgress emit result snd].
    now rewrite ocr_result, C.
  - destruct (ocr_path_trace w texts H L) as [tail [-> Htail]].
    cbn [filter isRequestImage]. rewrite filter_app.
    rewrite (filter_none isRequestImage isProgress tail);
      [| now intros [] | assumption].
    rewrite app_nil_r. unfold generateLocalizationFromPdfImages.
    rewrite trace_bind, C. cbn [length Nat.eqb]. rewrite app_nil_r.
    apply (filter_none isRequestImage (fun e => isProgress e || isCanvas e));
      [now intros [] | apply convert_effects].
  - destruct (ocr_path_trace w texts H L) as [tail [-> Htail]].
    cbn [filter isRequestText]. rewrite filter_app.
    rewrite (filter_none isRequestText isProgress tail);
      [| now intros [] | assumption].
    rewrite app_nil_r.
    apply (filter_none isRequestText isOcrEffect);
      [| apply ocr_trace].
    intros e. unfold isOcrEffect. now destruct (isRequestText e).
Qed.
End Outcomes.

Section Materialization.
Context {host : Host}.

(** Lower-casing never empties a string, nor fills the empty one. *)
Hypothesis toLowerCase_empty : forall s, toLowerCase s = [] <-> s = [].

(** C3, amended. On every successful run the records handed to file
    materialization are those the chosen path returned. On the OCR path
    [processPage] threw for no page, and the records are the cross-page
    consolidation of what the pages gave, taken in page order: the first
    record seen for each distinct non-empty identity, in encounter order,
    so that no two of them share a case-insensitive-normalized [en_text]
    (falling back to [ar_text] when [en_text] is empty). On the direct-text
    path they are the model's parsed answer as it came. *)
Theorem records_handed_to_materialization (w : world) (texts : list jsstring)
    (data : list TranslationPair) :
  result (extractTextFromPdf w) = Returned texts ->
  result (localizationData w) = Returned data ->
  result (processPdfForLocalization w) = Returned (generateFlutterFiles data)
  /\ ((length texts <= 5)%nat ->
      exists imageParts,
        result (convertPdfPagesToImageParts w) = Returned imageParts
        /\ existsb (fun b => b) (mapi (criticalPage w) 0 imageParts) = false
        /\ data = consolidate (concat (mapi (pageRecords w) 0 imageParts))
        /\ data
           = firstPerIdentity identity
               (filter (fun item => truthy (identity item))
                       (concat (mapi (pageRecords w) 0 imageParts)))
        /\ NoDup (map identity data))
  /\ ((5 < length texts)%nat -> respondText w texts = Parsed data).
Proof.
  intros H D. split; [now rewrite process_result, D|]. split; intros L.
  - rewrite (localizationData_ocr w texts H L) in D.
    rewrite 2 result_bind in D. cbn [onProgress emit result snd] in D.
    apply check_returned in D. destruct D as [D _].
    rewrite ocr_result in D.
    destruct (result (convertPdfPagesToImageParts w)) as [parts|e];
      [|discriminate].
    destruct (length parts =? 0)%nat; [discriminate|].
    destruct (existsb (fun b => b) (mapi (criticalPage w) 0 parts)) eqn:C;
      [discriminate|].
    injection D as <-. exists parts.
    split; [reflexivity|]. split; [exact C|]. split; [reflexivity|]. split.
    + rewrite consolidate_firstSeen. unfold firstPerIdentity.
      rewrite (firstSeen_id_ext uniqueKey identity _
                 (uniqueKey_identity toLowerCase_empty)).
      f_equal. apply filter_ext. intros item. unfold hasKey.
      now rewrite (uniqueKey_identity toLowerCase_empty).
    + rewrite <- (map_ext _ _ (uniqueKey_identity toLowerCase_empty)).
      apply consolidate_NoDup.
  - rewrite (localizationData_direct w texts H L) in D.
    rewrite 2 result_bind in D. cbn [onProgress emit result snd] in D.
    apply check_returned in D. destruct D as [D _].
    unfold generateKeysAndTranslations in D. rewrite result_bind in D.
    cbn [emit result snd] in D.
    destruct (respondText w texts) as [e|e|pairs];
      try destruct (isCriticalText e); try discriminate.
    cbn in D. congruence.
Qed.
End Materialization.

(** ** The component around the service *)

Lemma reportProgress_fold (t : list effect) :
  forall s,
    file (fold_left reportProgress t s) = file s
    /\ isLoading (fold_left reportProgress t s) = isLoading s
    /\ error (fold_left reportProgress t s) = error s
    /\ generatedFiles (fold_left reportProgress t s) = generatedFiles s
    /\ isKeyReady (fold_left reportProgress t s) = isKeyReady s.
Proof.
  induction t as [|e t IH]; intros s; simpl; [repeat split|].
  destruct (IH (reportProgress s e)) as [F [L [E [G K]]]].
  rewrite F, L, E, G, K. now destruct e.
Qed.

Section Component.
Context {host : Host}.

(** However the run ends, [handleProcessClick] leaves the component not
    loading and with the same file. After a run that returns it holds the
    four files, no error, and the completed progress; after a run that
    throws it holds no file of an earlier run and an error message. *)
Theorem process_click_settles (w : world) (s : AppState) (f : File) :
  file s = Some f ->
  isLoading (handleProcessClick w s) = false
  /\ file (handleProcessClick w s) = Some f
  /\ match result (processPdfForLocalization w) with
     | Returned files =>
         generatedFiles (handleProcessClick w s) = files
         /\ length files = 4%nat
         /\ error (handleProcessClick w s) = None
         /\ progress (handleProcessClick w s)
            = {| message := lit "Completed!"; percentage := 100 |}
         /\ isKeyReady (handleProcessClick w s) = isKeyReady s
     | Thrown _ =>
         generatedFiles (handleProcessClick w s) = []
         /\ error (handleProcessClick w s) <> None
     end.
Proof.
  intros Hf. unfold handleProcessClick. rewrite Hf.
  set (s0 := setProgress _ _).
  destruct (reportProgress_fold (trace (processPdfForLocalization w)) s0)
    as [F [L [E [G K]]]].
  pose proof (process_result w) as R.
  destruct (result (processPdfForLocalization w)) as [files|err].
  - cbn [setIsLoading setProgress setGeneratedFiles isLoading file
           generatedFiles error progress isKeyReady].
    rewrite F, E, K. repeat split; try assumption.
    destruct (result (localizationData w)) as [data|e]; [|discriminate].
    injection R as ->. reflexivity.
  - split; [reflexivity|]. split.
    + destruct err as [m|]; cbn [showFailure];
        [destruct (_ || _)|]; cbn; rewrite F; exact Hf.
    + destruct err as [m|]; cbn [showFailure];
        [destruct (_ || _)|]; cbn; rewrite G; split;
        first [reflexivity | discriminate].
Qed.

(** The service's API error mentions the API key, so the component takes
    every such failure, a 503 on one page included, for an invalid key: it
    shows the invalid-key message and goes back to the key screen. *)
Theorem api_error_asks_for_key (w : world) (s : AppState) (f : File) :
  file s = Some f ->
  result (processPdfForLocalization w) = Thrown (JsError (lit apiCallFailed)) ->
  error (handleProcessClick w s) = Some (lit invalidKeyMessage)
  /\ isKeyReady (handleProcessClick w s) = false.
Proof.
  intros Hf R. unfold handleProcessClick. rewrite Hf, R.
  unfold showFailure.
  replace (includes (lit "API key") (lit apiCallFailed)) with true
    by (vm_compute; reflexivity).
  split; reflexivity.
Qed.

(** On the direct-text path a failed request that is neither an RPC failure
    nor a 5xx, a refused API key included, reaches the user as the unknown
    error; the component stays on the main screen. *)
Theorem direct_failure_keeps_key (w : world) (s : AppState) (f : File)
    (texts : list jsstring) (e : thrown) :
  file s = Some f ->
  result (extractTextFromPdf w) = Returned texts ->
  (5 < length texts)%nat ->
  respondText w texts = CallFailed e ->
  isCriticalText e = false ->
  error (handleProcessClick w s) = Some (lit unknownError)
  /\ isKeyReady (handleProcessClick w s) = isKeyReady s
  /\ generatedFiles (handleProcessClick w s) = [].
Proof.
  intros Hf H L C N.
  assert (R : result (processPdfForLocalization w)
              = Thrown (JsError (lit unknownError))).
  { rewrite process_result, (localizationData_direct w texts H L).
    rewrite 3 result_bind. cbn [onProgress emit result snd].
    unfold generateKeysAndTranslations. rewrite result_bind.
    cbn [emit result snd]. now rewrite C, N. }
  unfold handleProcessClick. rewrite Hf, R.
  set (s0 := setProgress _ _).
  destruct (reportProgress_fold (trace (processPdfForLocalization w)) s0)
    as [_ [_ [_ [G K]]]].
  unfold showFailure.
  replace (includes (lit "API key") (lit unknownError)) with false
    by (vm_compute; reflexivity).
  replace (includes (lit "Requested entity was not found") (lit unknownError))
    with false by (vm_compute; reflexivity).
  cbn. rewrite G, K. repeat split.
Qed.
End Component.

(** [handleFileSelect] never leaves an error on display: the message it sets
    for a file that is not a PDF, or whose pages cannot be counted, is
    cleared by the reset that follows, which also drops the file. A PDF
    whose pages can be counted is kept with its page count, and the files
    of an earlier run are dropped. *)
Theorem file_select_outcome (w : world) (f : File) (s : AppState) :
  error (handleFileSelect w (Some f) s) = None
  /\ generatedFiles (handleFileSelect w (Some f) s) = []
  /\ (type f <> lit "application/pdf" ->
      handleFileSelect w (Some f) s = resetState s)
  /\ (forall e,
         type f = lit "application/pdf" ->
         result (getPdfPageCount w) = Thrown e ->
         handleFileSelect w (Some f) s = resetState s)
  /\ (forall pdf,
         type f = lit "application/pdf" ->
         pdfjsLib w = true ->
         getDocument w = Returned pdf ->
         file (handleFileSelect w (Some f) s) = Some f
         /\ pageCount (handleFileSelect w (Some f) s) = length pdf).
Proof.
  unfold handleFileSelect.
  destruct (str_eqb (type f) (lit "application/pdf")) eqn:T; cbn [negb].
  - apply str_eqb_eq in T.
    split; [now destruct (result (getPdfPageCount w))|].
    split; [now destruct (result (getPdfPageCount w))|].
    split; [congruence|]. split.
    + intros e _ ->. destruct s as [? ? ? ? ? ? ? ? [i|]]; reflexivity.
    + intros pdf _ Hlib Hdoc. unfold getPdfPageCount.
      rewrite Hlib, Hdoc. split; reflexivity.
  - assert (T' : type f <> lit "application/pdf")
      by (intros E; apply str_eqb_eq in E; congruence).
    split; [reflexivity|]. split; [reflexivity|].
    split; [reflexivity|]. split; [congruence | congruence].
Qed.

(** Every file the service generates is shown with an icon: the JSON icon
    for the two maps, the Dart icon for the two sources. *)
Theorem generated_files_have_icons (data : list TranslationPair) :
  map (fun f => getFileIcon (filename f)) (generateFlutterFiles data)
  = [Some FileJsonIcon; Some FileJsonIcon;
     Some FileDartIcon; Some FileDartIcon].
Proof.
  unfold generateFlutterFiles. cbn [map filename].
  repeat (f_equal; [vm_compute; reflexivity|]). reflexivity.
Qed.

(** * The further properties on the sample documents *)

(** The seven pages of [longScan], rasterized. *)
Example convert_longScan :
  result (convertPdfPagesToImageParts longScan)
  = Returned (map jpeg ["MQ=="; "Mg=="; "Mw=="; "NA=="; "NQ=="; "Ng==";
                        "Nw=="]%string).
Proof. vm_compute. reflexivity. Qed.

(** The loop on [longScan]: two pages fail and are skipped. *)
Example ocrBatches_longScan :
  result (ocrBatches longScan
            (map jpeg ["MQ=="; "Mg=="; "Mw=="; "NA=="; "NQ=="; "Ng==";
                       "Nw=="]%string) 7 0 [])
  = Returned [pair "title" "Title" "t"; pair "page" "Page" "p";
              pair "title" "Title" "t"; pair "page" "Page" "p";
              pair "title" "Title" "t"; pair "page" "Page" "p";
              pair "title" "Title" "t"; pair "page" "Page" "p";
              pair "title" "Title" "t"; pair "page" "Page" "p"].
Proof. vm_compute. reflexivity. Qed.

(** On [longScan] five requests do follow one another: four is no bound. *)
Example longScan_sends_five_at_once :
  requestRuns 4 (trace (@processPdfForLocalization asciiHost longScan)) 0
  = false.
Proof. vm_compute. reflexivity. Qed.

Lemma ocr_loop_requests_witness :
  filter isRequestImage
    (trace (ocrBatches longScan
              (map jpeg ["MQ=="; "Mg=="; "Mw=="; "NA=="; "NQ=="; "Ng==";
                         "Nw=="]%string) 7 0 []))
  = [RequestImage 0 (jpeg "MQ=="); RequestImage 1 (jpeg "Mg==");
     RequestImage 2 (jpeg "Mw=="); RequestImage 3 (jpeg "NA==");
     RequestImage 4 (jpeg "NQ=="); RequestImage 5 (jpeg "Ng==");
     RequestImage 6 (jpeg "Nw==")].
Proof.
  refine (ocr_loop_requests longScan
            (map jpeg ["MQ=="; "Mg=="; "Mw=="; "NA=="; "NQ=="; "Ng==";
                       "Nw=="]%string) _).
  vm_compute. reflexivity.
Defined.

Lemma rasterization_returns_witness :
  exists pdf,
    getDocument longScan = Returned pdf
    /\ getContext longScan = true
    /\ firstRenderError pdf = None
    /\ map jpeg ["MQ=="; "Mg=="; "Mw=="; "NA=="; "NQ=="; "Ng=="; "Nw=="]%string
       = imagePartsOf pdf
    /\ (length (map jpeg ["MQ=="; "Mg=="; "Mw=="; "NA=="; "NQ=="; "Ng==";
                          "Nw=="]%string) <= length pdf)%nat
    /\ Forall (fun part => mimeType part = lit "image/jpeg"
                           /\ data part <> [])
              (map jpeg ["MQ=="; "Mg=="; "Mw=="; "NA=="; "NQ=="; "Ng==";
                         "Nw=="]%string)
    /\ percentages (trace (convertPdfPagesToImageParts longScan))
       = map (fun i => progressPercentage i (length pdf))
             (seq 1 (length pdf)).
Proof. exact (rasterization_returns longScan _ convert_longScan). Defined.

Lemma rasterization_throws_first_error_witness :
  result (convertPdfPagesToImageParts unrenderablePdf)
  = Thrown (JsError (lit "Invalid page request")).
Proof.
  refine (rasterization_throws_first_error unrenderablePdf _ _
            eq_refl eq_refl eq_refl _).
  reflexivity.
Defined.

Lemma extracted_texts_witness :
  exists pdf,
    getDocument fiveTextsPdf = Returned pdf
    /\ NoDup (map lit ["Sign in"; "Email"; "Password"; "Submit";
                       "Cancel"]%string)
    /\ forall t,
        In t (map lit ["Sign in"; "Email"; "Password"; "Submit";
                       "Cancel"]%string)
        <-> (1 < length t)%nat
            /\ exists page str,
                In page pdf /\ In str (textItems page) /\ t = trim str.
Proof. exact (extracted_texts fiveTextsPdf _ extract_fiveTextsPdf). Defined.

Lemma last_record_wins_witness :
  (forall v,
      In (lit "cancel", v)
         (enTranslations ([pair "cancel" "Cancel" "no"]
                            ++ pair "cancel" "Abort" "stop"
                            :: [pair "ok" "OK" "yes"]))
      <-> v = lit "Abort")
  /\ (forall v,
         In (lit "cancel", v)
            (arTranslations ([pair "cancel" "Cancel" "no"]
                               ++ pair "cancel" "Abort" "stop"
                               :: [pair "ok" "OK" "yes"]))
         <-> v = lit "stop").
Proof.
  refine (last_record_wins [pair "cancel" "Cancel" "no"]
            [pair "ok" "OK" "yes"] (pair "cancel" "Abort" "stop") _ _).
  - vm_compute. intros [H | []]. discriminate.
  - vm_compute. discriminate.
Defined.

Lemma unreadable_pdf_aborts_witness :
  @processPdfForLocalization asciiHost brokenPdf
  = ([Progress (lit "Extracting text from PDF...") 5],
     Thrown (JsError (lit "Invalid PDF structure."))).
Proof.
  refine (@unreadable_pdf_aborts asciiHost brokenPdf _ _).
  vm_compute. reflexivity.
Defined.

Lemma direct_path_outcome_witness :
  result (@processPdfForLocalization asciiHost textPdf)
  = Returned (generateFlutterFiles [pair "submit_button" "Submit" "send";
                                    pair "send" "submit " "send"])
  <-> exists data,
        respondText textPdf
          (map lit ["Sign in"; "Email"; "Password"; "Submit"; "Cancel";
                    "Forgot password?"]%string) = Parsed data
        /\ data <> []
        /\ generateFlutterFiles [pair "submit_button" "Submit" "send";
                                 pair "send" "submit " "send"]
           = generateFlutterFiles data.
Proof.
  refine (@direct_path_outcome asciiHost textPdf _ _ extract_textPdf _).
  vm_compute. lia.
Defined.

Lemma ocr_path_outcome_witness :
  result (@processPdfForLocalization asciiHost scannedPdf)
  = Returned (generateFlutterFiles
                [pair "submit" "Submit" "send"; pair "hello" " hello " "hi"])
  /\ result (@processPdfForLocalization asciiHost longScan)
     = Returned (generateFlutterFiles
                   [pair "title" "Title" "t"; pair "page" "Page" "p"]).
Proof.
  split.
  - refine (eq_trans (@ocr_path_outcome asciiHost scannedPdf _
                        extract_scannedPdf _) _).
    + vm_compute. lia.
    + vm_compute. reflexivity.
  - assert (E : result (extractTextFromPdf longScan) = Returned [])
      by reflexivity.
    refine (eq_trans (@ocr_path_outcome asciiHost longScan _ E _) _).
    + vm_compute. lia.
    + vm_compute. reflexivity.
Defined.

Lemma no_image_no_request_witness :
  result (@processPdfForLocalization asciiHost emptyPdf)
  = Thrown (JsError
              (lit "Could not convert PDF to images for OCR processing."))
  /\ filter isRequestImage (trace (@processPdfForLocalization asciiHost emptyPdf))
     = []
  /\ filter isRequestText (trace (@processPdfForLocalization asciiHost emptyPdf))
     = [].
Proof.
  refine (@no_image_no_request asciiHost emptyPdf [] _ _ _).
  - reflexivity.
  - vm_compute. lia.
  - reflexivity.
Defined.

Lemma process_click_settles_witness :
  isLoading (@handleProcessClick asciiHost scannedPdf readyState) = false
  /\ file (@handleProcessClick asciiHost scannedPdf readyState)
     = Some {| type := lit "application/pdf" |}
  /\ match result (@processPdfForLocalization asciiHost scannedPdf) with
     | Returned files =>
         generatedFiles (@handleProcessClick asciiHost scannedPdf readyState)
         = files
         /\ length files = 4%nat
         /\ error (@handleProcessClick asciiHost scannedPdf readyState) = None
         /\ progress (@handleProcessClick asciiHost scannedPdf readyState)
            = {| message := lit "Completed!"; percentage := 100 |}
         /\ isKeyReady (@handleProcessClick asciiHost scannedPdf readyState)
            = isKeyReady readyState
     | Thrown _ =>
         generatedFiles (@handleProcessClick asciiHost scannedPdf readyState)
         = []
         /\ error (@handleProcessClick asciiHost scannedPdf readyState)
            <> None
     end.
Proof.
  exact (@process_click_settles asciiHost scannedPdf readyState _ eq_refl).
Defined.

Lemma api_error_asks_for_key_witness :
  error (@handleProcessClick asciiHost scannedPdf503 readyState)
  = Some (lit invalidKeyMessage)
  /\ isKeyReady (@handleProcessClick asciiHost scannedPdf503 readyState)
     = false.
Proof.
  refine (@api_error_asks_for_key asciiHost scannedPdf503 readyState _
            eq_refl _).
  vm_compute. reflexivity.
Defined.

Lemma direct_failure_keeps_key_witness :
  error (@handleProcessClick asciiHost textPdfBadKey readyState)
  = Some (lit unknownError)
  /\ isKeyReady (@handleProcessClick asciiHost textPdfBadKey readyState)
     = isKeyReady readyState
  /\ generatedFiles (@handleProcessClick asciiHost textPdfBadKey readyState)
     = [].
Proof.
  refine (@direct_failure_keeps_key asciiHost textPdfBadKey readyState _ _
            (JsError (lit "API key not valid. Please pass a valid API key."))
            eq_refl extract_textPdfBadKey _ eq_refl _).
  - vm_compute. lia.
  - vm_compute. reflexivity.
Defined.

(** Selecting a text file on the initial screen leaves no message. *)
Example select_text_file :
  handleFileSelect emptyPdf (Some {| type := lit "text/plain" |}) initialState
  = initialState.
Proof. vm_compute. reflexivity. Qed.


(** C3, amended, at [scannedPdf]. *)
Lemma records_handed_to_materialization_witness :
  result (@processPdfForLocalization asciiHost scannedPdf)
  = Returned (generateFlutterFiles
                [pair "submit" "Submit" "send"; pair "hello" " hello " "hi"])
  /\ ((length (map lit ["Hello"; "Submit"]%string) <= 5)%nat ->
      exists imageParts,
        result (convertPdfPagesToImageParts scannedPdf) = Returned imageParts
        /\ existsb (fun b => b) (mapi (criticalPage scannedPdf) 0 imageParts)
           = false
        /\ [pair "submit" "Submit" "send"; pair "hello" " hello " "hi"]
           = @consolidate asciiHost
               (concat (mapi (pageRecords scannedPdf) 0 imageParts))
        /\ [pair "submit" "Submit" "send"; pair "hello" " hello " "hi"]
           = firstPerIdentity (@identity asciiHost)
               (filter (fun item => truthy (@identity asciiHost item))
                       (concat (mapi (pageRecords scannedPdf) 0 imageParts)))
        /\ NoDup (map (@identity asciiHost)
                     [pair "submit" "Submit" "send";
                      pair "hello" " hello " "hi"]))
  /\ ((5 < length (map lit ["Hello"; "Submit"]%string))%nat ->
      respondText scannedPdf (map lit ["Hello"; "Submit"]%string)
      = Parsed [pair "submit" "Submit" "send"; pair "hello" " hello " "hi"]).
Proof.
  exact (@records_handed_to_materialization asciiHost
           asciiHost_toLowerCase_empty scannedPdf _ _
           extract_scannedPdf localizationData_scannedPdf).
Defined.
